(** * ActionsMenu and WeaponSelectorMenu (src/gameObjects/menus/ActionsMenu.ts)

    A shallow embedding of the tile-drawn actions menu: the fields of the
    menu instance, the tilemap layer it paints on, the scene's event bus,
    keyboard bindings and timers, and the button objects the menu holds
    references to.  Every method of the two classes is a computation in a
    state-and-exception monad over that state; a [TypeError] is what
    JavaScript raises when a property of [undefined] is read. *)

From stdpp Require Import gmap strings list pretty.

Local Open Scope Z_scope.

(** ** JavaScript numbers as the menu uses them

    Indices and tile coordinates are integers; the only non-integer a menu
    computation can produce is [NaN], from [%] with a zero divisor. *)

Inductive jsnum : Type :=
  | Num (z : Z)
  | NaN.

#[global] Instance jsnum_eq_dec : EqDecision jsnum.
Proof. solve_decision. Defined.

(** [a + b] and [a - b] with an integer literal [b]. *)
Definition js_add (a : jsnum) (b : Z) : jsnum :=
  match a with Num z => Num (z + b) | NaN => NaN end.

Definition js_sub (a : jsnum) (b : Z) : jsnum :=
  match a with Num z => Num (z - b) | NaN => NaN end.

(** [a % b]: the remainder takes the sign of the dividend; [x % 0] is [NaN]. *)
Definition js_rem (a : jsnum) (b : Z) : jsnum :=
  match a with
  | Num z => if decide (b = 0) then NaN else Num (Z.rem z b)
  | NaN => NaN
  end.

(** [a < b]: any comparison with [NaN] is false. *)
Definition js_lt (a : jsnum) (b : Z) : bool :=
  match a with Num z => bool_decide (z < b) | NaN => false end.

(** [a === b]: [NaN] is not equal to itself. *)
Definition js_strict_eq (a b : jsnum) : bool :=
  match a, b with
  | Num x, Num y => bool_decide (x = y)
  | _, _ => false
  end.

(** [arr[i]]: [undefined] outside the array and for [NaN]. *)
Definition js_index {A : Type} (arr : list A) (i : jsnum) : option A :=
  match i with
  | Num z => if decide (0 ≤ z) then arr !! Z.to_nat z else None
  | NaN => None
  end.

(** ** Data *)

Record Coord : Type := { coord_x : Z; coord_y : Z }.

(** The global [Weapon] type: the two fields the menu reads. *)
Record Weapon : Type := { weapon_name : string; weapon_usage : Z }.

(** A tilemap tile.  [tile_tileUnit] is [tile.properties.tileUnit], given by
    the weapons [getUnit().inventory.getWeapons()] returns; it is [None]
    when the property is missing. *)
Record Tile : Type := {
  tile_x : Z;
  tile_y : Z;
  tile_tileUnit : option (list Weapon);
}.

(** The optional second argument of [show]. *)
Record ActionsMenuShowOptions : Type := { opt_tile : option Tile }.

(** The [onClick] closures the repository builds, by the method that builds
    them: [createCancelButton] and [createWeaponButton]. *)
Inductive ClickHandler : Type :=
  | CancelClick
  | WeaponClick (weapon : Weapon).

(** Modelled from the spec: the class ActionButton (./ActionButton) is not
    among the sources.  A button is one object holding the options it was
    built with, its highlight, and the hover handler the menu attaches
    ([onPointerOver], here the index its closure captured); the container
    [getContainer()] returns carries the button as its 'actionButton' data,
    so one handle stands for both.  Activation (a 'pointerup' on the
    container) runs [onClick].  [ab_destroyed] records a [destroy()] of the
    container, after which the host has dropped its data and taken it out
    of the container it was a child of. *)
Record ActionButton : Type := {
  ab_text : string;
  ab_width : Z;
  ab_coord : option Coord;
  ab_onClick : ClickHandler;
  ab_highlighted : bool;
  ab_onPointerOver : option nat;
  ab_destroyed : bool;
}.

(** A reference to a button object: its position in the store [buttons]. *)
Abbreviation handle := nat (only parsing).

(** A [Phaser.GameObjects.Container] of buttons. *)
Record Container : Type := {
  c_list : list handle;
  c_visible : bool;
  c_position : Coord;
  c_displayHeight : Z;
}.

(** The dynamic tilemap layer: the tiles put on it, by (column, row), and the
    size of its tilemap in tiles and of a tile in pixels. *)
Record Layer : Type := {
  layer_visible : bool;
  layer_tiles : gmap (Z * Z) Z;
  tilemap_width : Z;
  tilemap_height : Z;
  layer_tileWidth : Z;
  layer_tileHeight : Z;
}.

Inductive Key : Type := KeyUP | KeyDOWN | KeyENTER.

#[global] Instance Key_eq_dec : EqDecision Key.
Proof. solve_decision. Defined.

(** An event emitted on the scene's bus, with the arguments passed along. *)
Record Event : Type := { ev_name : string; ev_args : list (option Tile) }.

(** The scene: events emitted so far (oldest first), the 'keydown' bindings
    of the menu, the callbacks [setTimeout] has pending (delay and the event
    they will emit), and what was written to the console. *)
Record Scene : Type := {
  sc_events : list Event;
  sc_keyboard : list Key;
  sc_timers : list (Z * Event);
  sc_console : list Weapon;
}.

Record LinesTiles : Type := { top : list Z; middle : list Z; bottom : list Z }.

(** The menu instance with everything it reaches: its fields, the layer, the
    scene, the store of button objects, and the 'pointerup' events emitted on
    buttons so far. *)
Record ActionsMenu : Type := {
  tile : option Tile;
  additionalButtons : option Container;
  allCurrentButtons : list handle;
  buttonsCount : Z;
  cursorIndex : jsnum;
  layer : Layer;
  permanentButtons : Container;
  scene : Scene;
  buttons : list ActionButton;
  pointerups : list handle;
}.

Definition textOffset : Coord := {| coord_x := 18; coord_y := 10 |}.

(** *** Field updates *)

Definition set_layer_visible (v : bool) (l : Layer) : Layer :=
  {| layer_visible := v; layer_tiles := layer_tiles l;
     tilemap_width := tilemap_width l; tilemap_height := tilemap_height l;
     layer_tileWidth := layer_tileWidth l; layer_tileHeight := layer_tileHeight l |}.

Definition set_layer_tiles (t : gmap (Z * Z) Z) (l : Layer) : Layer :=
  {| layer_visible := layer_visible l; layer_tiles := t;
     tilemap_width := tilemap_width l; tilemap_height := tilemap_height l;
     layer_tileWidth := layer_tileWidth l; layer_tileHeight := layer_tileHeight l |}.

Definition set_c_visible (v : bool) (c : Container) : Container :=
  {| c_list := c_list c; c_visible := v; c_position := c_position c;
     c_displayHeight := c_displayHeight c |}.

Definition set_c_position (p : Coord) (c : Container) : Container :=
  {| c_list := c_list c; c_visible := c_visible c; c_position := p;
     c_displayHeight := c_displayHeight c |}.

Definition set_c_list (l : list handle) (c : Container) : Container :=
  {| c_list := l; c_visible := c_visible c; c_position := c_position c;
     c_displayHeight := c_displayHeight c |}.

Definition set_highlighted (v : bool) (b : ActionButton) : ActionButton :=
  {| ab_text := ab_text b; ab_width := ab_width b; ab_coord := ab_coord b;
     ab_onClick := ab_onClick b; ab_highlighted := v;
     ab_onPointerOver := ab_onPointerOver b; ab_destroyed := ab_destroyed b |}.

Definition set_onPointerOver (v : option nat) (b : ActionButton) : ActionButton :=
  {| ab_text := ab_text b; ab_width := ab_width b; ab_coord := ab_coord b;
     ab_onClick := ab_onClick b; ab_highlighted := ab_highlighted b;
     ab_onPointerOver := v; ab_destroyed := ab_destroyed b |}.

Definition set_destroyed (v : bool) (b : ActionButton) : ActionButton :=
  {| ab_text := ab_text b; ab_width := ab_width b; ab_coord := ab_coord b;
     ab_onClick := ab_onClick b; ab_highlighted := ab_highlighted b;
     ab_onPointerOver := ab_onPointerOver b; ab_destroyed := v |}.

Definition set_sc_events (v : list Event) (sc : Scene) : Scene :=
  {| sc_events := v; sc_keyboard := sc_keyboard sc; sc_timers := sc_timers sc;
     sc_console := sc_console sc |}.

Definition set_sc_keyboard (v : list Key) (sc : Scene) : Scene :=
  {| sc_events := sc_events sc; sc_keyboard := v; sc_timers := sc_timers sc;
     sc_console := sc_console sc |}.

Definition set_sc_timers (v : list (Z * Event)) (sc : Scene) : Scene :=
  {| sc_events := sc_events sc; sc_keyboard := sc_keyboard sc; sc_timers := v;
     sc_console := sc_console sc |}.

Definition set_sc_console (v : list Weapon) (sc : Scene) : Scene :=
  {| sc_events := sc_events sc; sc_keyboard := sc_keyboard sc;
     sc_timers := sc_timers sc; sc_console := v |}.

Definition set_tile (v : option Tile) (s : ActionsMenu) : ActionsMenu :=
  {| tile := v; additionalButtons := additionalButtons s;
     allCurrentButtons := allCurrentButtons s; buttonsCount := buttonsCount s;
     cursorIndex := cursorIndex s; layer := layer s;
     permanentButtons := permanentButtons s; scene := scene s;
     buttons := buttons s; pointerups := pointerups s |}.

Definition set_additionalButtons (v : option Container) (s : ActionsMenu) : ActionsMenu :=
  {| tile := tile s; additionalButtons := v;
     allCurrentButtons := allCurrentButtons s; buttonsCount := buttonsCount s;
     cursorIndex := cursorIndex s; layer := layer s;
     permanentButtons := permanentButtons s; scene := scene s;
     buttons := buttons s; pointerups := pointerups s |}.

Definition set_allCurrentButtons (v : list handle) (s : ActionsMenu) : ActionsMenu :=
  {| tile := tile s; additionalButtons := additionalButtons s;
     allCurrentButtons := v; buttonsCount := buttonsCount s;
     cursorIndex := cursorIndex s; layer := layer s;
     permanentButtons := permanentButtons s; scene := scene s;
     buttons := buttons s; pointerups := pointerups s |}.

Definition set_buttonsCount (v : Z) (s : ActionsMenu) : ActionsMenu :=
  {| tile := tile s; additionalButtons := additionalButtons s;
     allCurrentButtons := allCurrentButtons s; buttonsCount := v;
     cursorIndex := cursorIndex s; layer := layer s;
     permanentButtons := permanentButtons s; scene := scene s;
     buttons := buttons s; pointerups := pointerups s |}.

Definition set_cursorIndex (v : jsnum) (s : ActionsMenu) : ActionsMenu :=
  {| tile := tile s; additionalButtons := additionalButtons s;
     allCurrentButtons := allCurrentButtons s; buttonsCount := buttonsCount s;
     cursorIndex := v; layer := layer s;
     permanentButtons := permanentButtons s; scene := scene s;
     buttons := buttons s; pointerups := pointerups s |}.

Definition set_layer (v : Layer) (s : ActionsMenu) : ActionsMenu :=
  {| tile := tile s; additionalButtons := additionalButtons s;
     allCurrentButtons := allCurrentButtons s; buttonsCount := buttonsCount s;
     cursorIndex := cursorIndex s; layer := v;
     permanentButtons := permanentButtons s; scene := scene s;
     buttons := buttons s; pointerups := pointerups s |}.

Definition set_permanentButtons (v : Container) (s : ActionsMenu) : ActionsMenu :=
  {| tile := tile s; additionalButtons := additionalButtons s;
     allCurrentButtons := allCurrentButtons s; buttonsCount := buttonsCount s;
     cursorIndex := cursorIndex s; layer := layer s;
     permanentButtons := v; scene := scene s;
     buttons := buttons s; pointerups := pointerups s |}.

Definition set_scene (v : Scene) (s : ActionsMenu) : ActionsMenu :=
  {| tile := tile s; additionalButtons := additionalButtons s;
     allCurrentButtons := allCurrentButtons s; buttonsCount := buttonsCount s;
     cursorIndex := cursorIndex s; layer := layer s;
     permanentButtons := permanentButtons s; scene := v;
     buttons := buttons s; pointerups := pointerups s |}.

Definition set_buttons (v : list ActionButton) (s : ActionsMenu) : ActionsMenu :=
  {| tile := tile s; additionalButtons := additionalButtons s;
     allCurrentButtons := allCurrentButtons s; buttonsCount := buttonsCount s;
     cursorIndex := cursorIndex s; layer := layer s;
     permanentButtons := permanentButtons s; scene := scene s;
     buttons := v; pointerups := pointerups s |}.

Definition set_pointerups (v : list handle) (s : ActionsMenu) : ActionsMenu :=
  {| tile := tile s; additionalButtons := additionalButtons s;
     allCurrentButtons := allCurrentButtons s; buttonsCount := buttonsCount s;
     cursorIndex := cursorIndex s; layer := layer s;
     permanentButtons := permanentButtons s; scene := scene s;
     buttons := buttons s; pointerups := v |}.

(** ** The monad of menu methods *)

(** How a call ends: normally with a value, or with a [TypeError] thrown. *)
Inductive completion (A : Type) : Type :=
  | Normal (a : A)
  | TypeError.
Arguments Normal {A} a.
Arguments TypeError {A}.

Definition M (A : Type) : Type := ActionsMenu → completion A * ActionsMenu.

#[global] Instance M_ret : MRet M := λ A a s, (Normal a, s).

#[global] Instance M_bind : MBind M := λ A B f m s,
  match m s with
  | (Normal a, s') => f a s'
  | (TypeError, s') => (TypeError, s')
  end.

Definition throw {A : Type} : M A := λ s, (TypeError, s).
Definition gets {A : Type} (f : ActionsMenu → A) : M A := λ s, (Normal (f s), s).
Definition modify (f : ActionsMenu → ActionsMenu) : M unit := λ s, (Normal (), f s).

(** The state a call leaves behind, also when it throws, and whether it
    returned. *)
Definition exec {A : Type} (m : M A) (s : ActionsMenu) : ActionsMenu := (m s).2.

Definition returns {A : Type} (m : M A) (s : ActionsMenu) : bool :=
  match (m s).1 with Normal _ => true | TypeError => false end.

(** What a method hands back to a call chain: [return this], or nothing. *)
Inductive receiver : Type := This | Undefined.

(** [m().k()]: calling [k] on what [m] returned; on [undefined] the member
    access throws before [k] runs. *)
Definition chain {A : Type} (m : M receiver) (k : M A) : M A :=
  r ← m; match r with This => k | Undefined => throw end.

Notation "m '>>.' k" := (chain m k) (at level 50, left associativity).

(** [arr.map((value, index) => ...)] run for its effects, from index [i]. *)
Fixpoint forEachIndexed {A : Type} (f : A → nat → M unit) (arr : list A) (i : nat) : M unit :=
  match arr with
  | [] => mret ()
  | a :: rest => f a i;; forEachIndexed f rest (S i)
  end.

(** ** Host primitives (Phaser), as far as the menu calls them *)

Definition layer_setVisible (v : bool) : M unit :=
  modify (λ s, set_layer (set_layer_visible v (layer s)) s).

(** A position of a layer [w] tiles wide and [h] tiles high. *)
Definition inBounds (w h x y : Z) : Prop := 0 ≤ x < w ∧ 0 ≤ y < h.

#[global] Instance inBounds_dec w h x y : Decision (inBounds w h x y).
Proof. unfold inBounds. apply _. Defined.

(** [layer.putTileAt(index, x, y)]: the host puts the tile when the position
    lies on the layer, which has the size of its tilemap, and nothing
    otherwise. *)
Definition putTileAt (index x y : Z) : M unit :=
  modify (λ s,
    if decide (inBounds (tilemap_width (layer s)) (tilemap_height (layer s)) x y)
    then set_layer (set_layer_tiles (<[(x, y) := index]> (layer_tiles (layer s))) (layer s)) s
    else s).

(** [layer.tileToWorldXY(x, y)]: the pixel position of a tile. *)
Definition tileToWorldXY (l : Layer) (x y : Z) : Coord :=
  {| coord_x := x * layer_tileWidth l; coord_y := y * layer_tileHeight l |}.

(** [scene.events.emit(name, ...args)]. *)
Definition events_emit (name : string) (args : list (option Tile)) : M unit :=
  modify (λ s,
    set_scene (set_sc_events (sc_events (scene s) ++ [{| ev_name := name; ev_args := args |}])
                 (scene s)) s).

(** [input.keyboard.on('keydown-K', handler, this)] and the matching [off],
    which removes every binding of the handler. *)
Definition keyboard_on (k : Key) : M unit :=
  modify (λ s, set_scene (set_sc_keyboard (sc_keyboard (scene s) ++ [k]) (scene s)) s).

Definition keyboard_off (k : Key) : M unit :=
  modify (λ s,
    set_scene (set_sc_keyboard (filter (λ k', k' ≠ k) (sc_keyboard (scene s))) (scene s)) s).

(** [setTimeout(() => scene.events.emit(name), delay)]. *)
Definition setTimeout_emit (name : string) (delay : Z) : M unit :=
  modify (λ s,
    set_scene (set_sc_timers (sc_timers (scene s) ++ [(delay, {| ev_name := name; ev_args := [] |})])
                 (scene s)) s).

Definition console_log (w : Weapon) : M unit :=
  modify (λ s, set_scene (set_sc_console (sc_console (scene s) ++ [w]) (scene s)) s).

(** [scene.add.container(0, 0)]: a new, empty, visible container. *)
Definition scene_add_container : M Container :=
  mret {| c_list := []; c_visible := true;
          c_position := {| coord_x := 0; coord_y := 0 |}; c_displayHeight := 0 |}.

(** [new ActionButton(scene, options).getContainer()]: the new object's handle. *)
Definition newActionButton (b : ActionButton) : M handle :=
  λ s, (Normal (length (buttons s)), set_buttons (buttons s ++ [b]) s).

(** A method of the button behind a handle ([button.getData('actionButton')]
    followed by an update of that object).  The object is there as long as
    the button is live; the one method that runs over buttons after a
    [destroy()], [removeOverEventButtons], reads it with [getActionButton]
    below. *)
Definition update_button (f : ActionButton → ActionButton) (h : handle) : M unit :=
  modify (λ s, set_buttons (alter f h (buttons s)) s).

Definition addHighlight : handle → M unit := update_button (set_highlighted true).
Definition removeHighlight : handle → M unit := update_button (set_highlighted false).
Definition button_destroy : handle → M unit := update_button (set_destroyed true).

(** Whether the object behind [h] has been destroyed. *)
Definition destroyed_at (bs : list ActionButton) (h : handle) : bool :=
  match bs !! h with
  | Some b => ab_destroyed b
  | None => false
  end.

(** [button.getData('actionButton')] on a container that [destroy()] went
    over: the host has dropped the container's data, the result is
    [undefined], and the method call that follows throws. *)
Definition getActionButton (button : handle) : M unit :=
  destroyed ← gets (λ s, destroyed_at (buttons s) button);
  if (destroyed : bool) then throw else mret ().

(** ** ActionsMenu: the methods that do not depend on the subclass *)

Definition createLine (columns : list Z) (x y : Z) : M unit :=
  forEachIndexed (λ value index, putTileAt value (x + Z.of_nat index) y) columns 0.

(** The body of [for (let index = 0; index < itemsCount; index++)] in
    [createContainer], run [n] more times: it paints a middle line and
    advances [bottomY], which it returns. *)
Fixpoint middleLinesLoop (columns : list Z) (n : nat) (x y index bottomY : Z) : M Z :=
  match n with
  | O => mret bottomY
  | S n' =>
      createLine columns x (y + index + 1);;
      middleLinesLoop columns n' x y (index + 1) (bottomY + 1)
  end.

Record CreateContainerParam : Type := { coord : Coord; itemsCount : Z }.

Definition createContainer (lines : LinesTiles) (param : CreateContainerParam) : M receiver :=
  let x := coord_x (coord param) in
  let y := coord_y (coord param) in
  let middleLineCount := Z.max 0 (itemsCount param - 2) in
  let bottomY := y + middleLineCount in
  createLine (top lines) x y;;
  bottomY' ← middleLinesLoop (middle lines) (Z.to_nat (itemsCount param)) x y 0 bottomY;
  createLine (bottom lines) x bottomY';;
  mret This.

Definition getPanelWidth (lines : LinesTiles) : Z :=
  fold_left
    (λ maxTilesWidth columns,
       if bool_decide (Z.of_nat (length columns) > maxTilesWidth)
       then Z.of_nat (length columns) else maxTilesWidth)
    [top lines; middle lines; bottom lines] 0.

Definition getMenuCoord (lines : LinesTiles) (cursor : Tile) (s : ActionsMenu) : Coord :=
  let panelWidth := getPanelWidth lines in
  let panelHeight := buttonsCount s + 2 in
  let x := tile_x cursor + 1 in
  let y := tile_y cursor + 1 in
  let x := if bool_decide (x + panelWidth > tilemap_width (layer s))
           then x - (panelWidth + 1) else x in
  let y := if bool_decide (y + panelHeight > tilemap_height (layer s))
           then y - panelHeight else y in
  {| coord_x := x; coord_y := y |}.

Definition cursorIndexChanged (newIndex : jsnum) : M unit :=
  cur ← gets cursorIndex;
  if js_strict_eq cur newIndex then mret ()
  else
    previousButtonOvered ← gets (λ s, js_index (allCurrentButtons s) (cursorIndex s));
    match previousButtonOvered with
    | None => throw
    | Some prev =>
        removeHighlight prev;;
        modify (set_cursorIndex newIndex);;
        buttonOvered ← gets (λ s, js_index (allCurrentButtons s) (cursorIndex s));
        match buttonOvered with
        | None => throw
        | Some b => addHighlight b
        end
    end.

Definition addOverEventButtons : M receiver :=
  l ← gets allCurrentButtons;
  forEachIndexed (λ button index, update_button (set_onPointerOver (Some index)) button) l 0;;
  mret This.

(** The buttons [hide] reads here may have been destroyed by
    [destroyAdditionalButtons] just before: the loop stops with a
    [TypeError] at the first such button. *)
Definition removeOverEventButtons : M receiver :=
  l ← gets allCurrentButtons;
  forEachIndexed
    (λ button _,
       getActionButton button;;
       removeHighlight button;;
       update_button (set_onPointerOver None) button) l 0;;
  mret This.

(** [children.map((button) => { button.destroy(); })] over the container's
    own [list], for the indices [index], [index + 1], ... of the [n] it had
    at the start: the host takes a destroyed child out of its container, so
    the list shrinks under the loop, which visits only the indices the list
    still has. *)
Fixpoint destroyChildren (n : nat) (index : nat) : M unit :=
  match n with
  | O => mret ()
  | S n' =>
      add ← gets additionalButtons;
      match add with
      | Some c =>
          match c_list c !! index with
          | Some button =>
              button_destroy button;;
              modify (set_additionalButtons (Some (set_c_list (delete index (c_list c)) c)))
          | None => mret ()
          end
      | None => mret ()
      end;;
      destroyChildren n' (S index)
  end.

Definition destroyAdditionalButtons : M receiver :=
  add ← gets additionalButtons;
  match add with
  | None => mret This
  | Some c => destroyChildren (length (c_list c)) 0;; mret This
  end.

(** Every non-empty tile of the layer is removed. *)
Definition destroyContainer : M receiver :=
  modify (λ s, set_layer (set_layer_tiles ∅ (layer s)) s);;
  mret This.

Definition disableEvents : M receiver :=
  keyboard_off KeyUP;; keyboard_off KeyDOWN;; keyboard_off KeyENTER;; mret This.

Definition enableEvents : M receiver :=
  keyboard_on KeyUP;; keyboard_on KeyDOWN;; keyboard_on KeyENTER;; mret This.

Definition disableMapEvents : M receiver :=
  events_emit "unsubscribeMapEvents" [];; mret This.

Definition enableMapEvents : M receiver :=
  setTimeout_emit "subscribeMapEvents" 100;; mret This.

Definition highlightFirstButton : M receiver :=
  firstButton ← gets (λ s, js_index (allCurrentButtons s) (Num 0));
  match firstButton with
  | None => throw
  | Some b => addHighlight b;; mret This
  end.

Definition keydownDOWN : M unit :=
  newIndex ← gets (λ s, js_rem (js_add (cursorIndex s) 1) (buttonsCount s));
  cursorIndexChanged newIndex.

Definition keydownUP : M unit :=
  previousIndex ← gets (λ s, js_sub (cursorIndex s) 1);
  newIndex ← gets (λ s, if js_lt previousIndex 0 then Num (buttonsCount s - 1) else previousIndex);
  cursorIndexChanged newIndex.

(** No [return]: a call of [reinitializeProperties] yields [undefined]. *)
Definition reinitializeProperties : M receiver :=
  modify (set_buttonsCount 0);;
  modify (set_allCurrentButtons []);;
  modify (set_cursorIndex (Num 0));;
  mret Undefined.

Definition showButtons (c : Coord) : M receiver :=
  let x := coord_x c + coord_x textOffset in
  let y := coord_y c + coord_y textOffset in
  modify (λ s, set_permanentButtons
                 (set_c_position {| coord_x := x; coord_y := y |}
                    (set_c_visible true (permanentButtons s))) s);;
  modify (λ s,
    match additionalButtons s with
    | Some a =>
        set_additionalButtons
          (Some (set_c_position
                   {| coord_x := x; coord_y := y + c_displayHeight (permanentButtons s) |} a)) s
    | None => s
    end);;
  addOverEventButtons;;
  mret This.

(** [hide()] has no [return] either: its value is that of the statement's
    last call, dropped. *)
Definition hide : M receiver :=
  layer_setVisible false;;
  modify (λ s, set_permanentButtons (set_c_visible false (permanentButtons s)) s);;
  (destroyContainer
     >>. destroyAdditionalButtons
     >>. disableEvents
     >>. removeOverEventButtons
     >>. enableMapEvents
     >>. reinitializeProperties);;
  mret Undefined.

Definition isVisible (s : ActionsMenu) : bool := layer_visible (layer s).

(** The hover handler [addOverEventButtons] attaches, when the pointer
    enters the button behind [h]. *)
Definition pointerOver (h : handle) : M unit :=
  b ← gets (λ s, buttons s !! h);
  match b with
  | Some b' =>
      match ab_onPointerOver b' with
      | Some index => cursorIndexChanged (Num (Z.of_nat index))
      | None => mret ()
      end
  | None => mret ()
  end.

(** ** The abstract part: what a concrete menu supplies *)

Class MenuClass : Type := {
  linesTiles : LinesTiles;
  createAdditionalButtons : M Container;
  createPermanentButtons : M Container;
}.

(** The [linesTiles] initialiser of the base class. *)
Definition ActionsMenu_linesTiles : LinesTiles :=
  {| top := [2668; 2669; 2669; 2670];
     middle := [2698; 2699; 2699; 2700];
     bottom := [2728; 2729; 2729; 2730] |}.

Definition show {menu : MenuClass} (cursor : Tile) (options : option ActionsMenuShowOptions) : M unit :=
  match options with
  | Some o => modify (set_tile (opt_tile o))
  | None => mret ()
  end;;
  layer_setVisible true;;
  xy ← gets (getMenuCoord linesTiles cursor);
  lay ← gets layer;
  containerButtons ← gets (λ s, c_list (permanentButtons s));
  add ← createAdditionalButtons;
  modify (set_additionalButtons (Some add));;
  additional ← gets additionalButtons;
  match additional with
  | Some a =>
      (* [Array.prototype.concat] builds a new array, which is dropped *)
      let _ := containerButtons ++ c_list a in mret ()
  | None => mret ()
  end;;
  modify (set_allCurrentButtons containerButtons);;
  modify (set_buttonsCount (Z.of_nat (length containerButtons)));;
  (disableMapEvents
     >>. (n ← gets buttonsCount;
          createContainer linesTiles {| coord := xy; itemsCount := n |})
     >>. showButtons (tileToWorldXY lay (coord_x xy) (coord_y xy))
     >>. highlightFirstButton
     >>. enableEvents);;
  mret ().

(** The field initialisers and the constructor body, on the scene and the
    layer passed in.  [permanentButtons] is unset while
    [createPermanentButtons] runs. *)
Definition construct {menu : MenuClass} (sc : Scene) (l : Layer) : completion unit * ActionsMenu :=
  (c ← createPermanentButtons;
   modify (set_permanentButtons c);;
   layer_setVisible false;;
   modify (λ s, set_permanentButtons (set_c_visible false (permanentButtons s)) s))
    {| tile := None; additionalButtons := None; allCurrentButtons := [];
       buttonsCount := 0; cursorIndex := Num 0; layer := l;
       permanentButtons := {| c_list := []; c_visible := true;
                              c_position := {| coord_x := 0; coord_y := 0 |};
                              c_displayHeight := 0 |};
       scene := sc; buttons := []; pointerups := [] |}.

(** ** WeaponSelectorMenu *)

Definition WeaponSelectorMenu_linesTiles : LinesTiles :=
  {| top := [2674; 2675; 2675; 2675; 2675; 2675; 2675; 2676];
     middle := [2704; 2705; 2705; 2705; 2705; 2705; 2705; 2706];
     bottom := [2734; 2735; 2735; 2735; 2735; 2735; 2735; 2736] |}.

Definition buttonWidth : Z := 200.

Definition createCancelButton : M handle :=
  newActionButton
    {| ab_text := "cancel"; ab_width := 200; ab_coord := None;
       ab_onClick := CancelClick; ab_highlighted := false;
       ab_onPointerOver := None; ab_destroyed := false |}.

Definition createWeaponButton (weapon : Weapon) (c : option Coord) : M handle :=
  newActionButton
    {| ab_text := weapon_name weapon +:+ "         x" +:+ pretty (weapon_usage weapon);
       ab_width := buttonWidth; ab_coord := c;
       ab_onClick := WeaponClick weapon; ab_highlighted := false;
       ab_onPointerOver := None; ab_destroyed := false |}.

(** [weapons.map((weapon, index) => this.createWeaponButton(weapon, coord))]. *)
Fixpoint createWeaponButtons (weapons : list Weapon) (index : nat) : M (list handle) :=
  match weapons with
  | [] => mret []
  | weapon :: rest =>
      let c := {| coord_x := 0; coord_y := (Z.of_nat index + 1) * 30 |} in
      b ← createWeaponButton weapon (Some c);
      bs ← createWeaponButtons rest (S index);
      mret (b :: bs)
  end.

Definition WeaponSelectorMenu_createAdditionalButtons : M Container :=
  container ← scene_add_container;
  t ← gets tile;
  match t with
  | Some t' =>
      match tile_tileUnit t' with
      | None => throw
      | Some weapons =>
          weaponButtons ← createWeaponButtons weapons 0;
          mret (set_c_list (c_list container ++ weaponButtons) container)
      end
  | None => mret container
  end.

Definition WeaponSelectorMenu_createPermanentButtons : M Container :=
  container ← scene_add_container;
  cancel ← createCancelButton;
  mret (set_c_list (c_list container ++ [cancel]) container).

#[global] Instance WeaponSelectorMenu : MenuClass := {|
  linesTiles := WeaponSelectorMenu_linesTiles;
  createAdditionalButtons := WeaponSelectorMenu_createAdditionalButtons;
  createPermanentButtons := WeaponSelectorMenu_createPermanentButtons;
|}.

(** The exports of ../../actions/weaponSelector, which is not among the
    sources: the event-name prefix and the identifier of the cancel action. *)
Class WeaponSelectorNames : Type := {
  weaponSelectorEvent : string;
  WeaponSelectorActions_cancel : string;
}.

Section Activation.
Context {names : WeaponSelectorNames}.

Definition sendAction (action : string) : M unit :=
  t ← gets tile;
  events_emit (weaponSelectorEvent +:+ action) [t].

(** The two [onClick] closures. *)
Definition onClick (c : ClickHandler) : M unit :=
  match c with
  | CancelClick => hide >>. sendAction WeaponSelectorActions_cancel
  | WeaponClick weapon => hide;; console_log weapon
  end.

(** [button.emit('pointerup')]: the event is recorded and the button's
    [onClick] runs. *)
Definition emit_pointerup (h : handle) : M unit :=
  modify (λ s, set_pointerups (pointerups s ++ [h]) s);;
  b ← gets (λ s, buttons s !! h);
  match b with
  | Some b' => onClick (ab_onClick b')
  | None => mret ()
  end.

Definition keydownENTER : M unit :=
  buttonOver ← gets (λ s, js_index (allCurrentButtons s) (cursorIndex s));
  match buttonOver with
  | None => throw
  | Some b => removeHighlight b;; emit_pointerup b
  end.
End Activation.

(** ** Concrete inputs used below *)

Definition emptyScene : Scene :=
  {| sc_events := []; sc_keyboard := []; sc_timers := []; sc_console := [] |}.

(** A 30 x 20 tilemap of 16-pixel tiles with nothing painted on the layer. *)
Definition emptyLayer : Layer :=
  {| layer_visible := true; layer_tiles := ∅; tilemap_width := 30;
     tilemap_height := 20; layer_tileWidth := 16; layer_tileHeight := 16 |}.

Definition sword : Weapon := {| weapon_name := "sword"; weapon_usage := 40 |}.
Definition axe : Weapon := {| weapon_name := "axe"; weapon_usage := 25 |}.

Definition unitTile : Tile :=
  {| tile_x := 4; tile_y := 5; tile_tileUnit := Some [sword; axe] |}.

Definition plainTile : Tile := {| tile_x := 7; tile_y := 3; tile_tileUnit := None |}.

(** [new WeaponSelectorMenu(scene, layer)]. *)
Definition newWeaponSelectorMenu : ActionsMenu :=
  (construct (menu := WeaponSelectorMenu) emptyScene emptyLayer).2.

Definition demoNames : WeaponSelectorNames :=
  {| weaponSelectorEvent := "weaponSelector:"; WeaponSelectorActions_cancel := "cancel" |}.

(** ** What the loops compute

    Pure readings of the four loops of the source, used to state what the
    methods built from them return. *)

(** The states a [forEachIndexed] of plain updates goes through. *)
Fixpoint run_each {A : Type} (g : A → nat → ActionsMenu → ActionsMenu)
    (arr : list A) (i : nat) (s : ActionsMenu) : ActionsMenu :=
  match arr with
  | [] => s
  | a :: rest => run_each g rest (S i) (g a i s)
  end.

(** The button store after [f index] was applied to each button of [l]. *)
Fixpoint alter_each (f : nat → ActionButton → ActionButton) (l : list handle)
    (i : nat) (bs : list ActionButton) : list ActionButton :=
  match l with
  | [] => bs
  | h :: rest => alter_each f rest (S i) (alter (f i) h bs)
  end.

(** The tiles of a [w] x [h] layer after one line was put at row [y], from
    column [x + i]. *)
Fixpoint paintLine (w h : Z) (columns : list Z) (x y : Z) (i : nat) (t : gmap (Z * Z) Z) :
    gmap (Z * Z) Z :=
  match columns with
  | [] => t
  | value :: rest =>
      paintLine w h rest x y (S i)
        (if decide (inBounds w h (x + Z.of_nat i) y)
         then <[(x + Z.of_nat i, y) := value]> t else t)
  end.

(** The tiles after [n] more rounds of the middle-line loop. *)
Fixpoint paintMiddle (w h : Z) (columns : list Z) (n : nat) (x y index : Z)
    (t : gmap (Z * Z) Z) : gmap (Z * Z) Z :=
  match n with
  | O => t
  | S n' =>
      paintMiddle w h columns n' x y (index + 1)
        (paintLine w h columns x (y + index + 1) 0 t)
  end.

(** The row [createContainer] puts the bottom line at. *)
Definition bottomRow (y itemsCount : Z) : Z :=
  y + Z.max 0 (itemsCount - 2) + Z.of_nat (Z.to_nat itemsCount).

Definition paintContainer (w h : Z) (lines : LinesTiles) (param : CreateContainerParam)
    (t : gmap (Z * Z) Z) : gmap (Z * Z) Z :=
  let x := coord_x (coord param) in
  let y := coord_y (coord param) in
  paintLine w h (bottom lines) x (bottomRow y (itemsCount param)) 0
    (paintMiddle w h (middle lines) (Z.to_nat (itemsCount param)) x y 0
       (paintLine w h (top lines) x y 0 t)).

(** The children [destroyChildren] destroys, those at the even positions of
    the list, and the ones it leaves in the container, those at the odd
    positions. *)
Fixpoint evens (l : list handle) : list handle :=
  match l with
  | a :: _ :: rest => a :: evens rest
  | [a] => [a]
  | [] => []
  end.

Fixpoint odds (l : list handle) : list handle :=
  match l with
  | _ :: b :: rest => b :: odds rest
  | _ => []
  end.

(** The child list and the button store after [n] rounds of
    [destroyChildren] from [index]. *)
Fixpoint destroy_pass (n index : nat) (children : list handle) (bs : list ActionButton) :
    list handle * list ActionButton :=
  match n with
  | O => (children, bs)
  | S n' =>
      match children !! index with
      | Some button =>
          destroy_pass n' (S index) (delete index children) (alter (set_destroyed true) button bs)
      | None => destroy_pass n' (S index) children bs
      end
  end.

(** The loop of [removeOverEventButtons] over [l]: whether it came to its
    end, and the button store it leaves. *)
Fixpoint unhover_pass (l : list handle) (bs : list ActionButton) : bool * list ActionButton :=
  match l with
  | [] => (true, bs)
  | button :: rest =>
      if destroyed_at bs button then (false, bs)
      else unhover_pass rest
             (alter (λ b, set_onPointerOver None (set_highlighted false b)) button bs)
  end.

(** The object [createWeaponButton] builds for the [index]-th weapon. *)
Definition weaponButton (weapon : Weapon) (index : nat) : ActionButton :=
  {| ab_text := weapon_name weapon +:+ "         x" +:+ pretty (weapon_usage weapon);
     ab_width := buttonWidth;
     ab_coord := Some {| coord_x := 0; coord_y := (Z.of_nat index + 1) * 30 |};
     ab_onClick := WeaponClick weapon; ab_highlighted := false;
     ab_onPointerOver := None; ab_destroyed := false |}.

Fixpoint weaponButtonsFrom (weapons : list Weapon) (index : nat) : list ActionButton :=
  match weapons with
  | [] => []
  | weapon :: rest => weaponButton weapon index :: weaponButtonsFrom rest (S index)
  end.

(** The tile [show] leaves in the [tile] field: the one passed in the
    options, or else the one already stored. *)
Definition contextTile (options : option ActionsMenuShowOptions) (s : ActionsMenu) : option Tile :=
  match options with
  | Some o => opt_tile o
  | None => tile s
  end.

(** The cursor points at a button of the navigable list, which is as long as
    [buttonsCount] says. *)
Definition cursor_in_range (s : ActionsMenu) (i : Z) : Prop :=
  cursorIndex s = Num i ∧ 0 ≤ i < buttonsCount s ∧
  Z.of_nat (length (allCurrentButtons s)) = buttonsCount s.

(** ** Auxiliary definitions for the statements below *)

(** The weapons of the unit on the context tile, and whether the tile has
    the unit data [createAdditionalButtons] reads. *)
Definition contextWeapons (t : option Tile) : list Weapon :=
  match t with
  | Some t' => default [] (tile_tileUnit t')
  | None => []
  end.

Definition unit_known (t : option Tile) : Prop :=
  match t with
  | Some t' => is_Some (tile_tileUnit t')
  | None => True
  end.

(** The children of the context container, if there is one. *)
Definition contextChildren (s : ActionsMenu) : list handle :=
  default [] (c_list <$> additionalButtons s).

(** No navigable button is a child of the context container, and none has
    been destroyed: what [show] leaves, the navigable buttons being the
    permanent ones. *)
Definition navigable_live (s : ActionsMenu) : Prop :=
  Forall (λ h, (h ∉ contextChildren s) ∧ destroyed_at (buttons s) h = false)
    (allCurrentButtons s).

#[global] Instance navigable_live_dec s : Decision (navigable_live s).
Proof. unfold navigable_live. apply _. Defined.

(** The permanent buttons are in the store, none is a child of the context
    container and none has been destroyed: what the constructor leaves, and
    [show] and [hide] keep. *)
Definition permanent_live (s : ActionsMenu) : Prop :=
  Forall (λ h, (h < length (buttons s))%nat ∧ (h ∉ contextChildren s) ∧
               destroyed_at (buttons s) h = false)
    (c_list (permanentButtons s)).

#[global] Instance permanent_live_dec s : Decision (permanent_live s).
Proof. unfold permanent_live. apply _. Defined.

(** [s'] has the navigable list, the containers' children and the
    [destroyed] flags of [s]. *)
Definition same_liveness (s s' : ActionsMenu) : Prop :=
  allCurrentButtons s' = allCurrentButtons s ∧
  c_list (permanentButtons s') = c_list (permanentButtons s) ∧
  contextChildren s' = contextChildren s ∧
  length (buttons s') = length (buttons s) ∧
  ∀ h, destroyed_at (buttons s') h = destroyed_at (buttons s) h.

(** Whether [hide] gets through [removeOverEventButtons]: no navigable
    button is destroyed, before or by [destroyAdditionalButtons]. *)
Definition hide_completes (s : ActionsMenu) : bool :=
  (unhover_pass (allCurrentButtons s)
     (alter_each (λ _, set_destroyed true) (evens (contextChildren s)) 0 (buttons s))).1.

(** The button store [hide] leaves, whether or not it throws on the way. *)
Definition hidden_buttons (s : ActionsMenu) : list ActionButton :=
  (unhover_pass (allCurrentButtons s)
     (alter_each (λ _, set_destroyed true) (evens (contextChildren s)) 0 (buttons s))).2.

(** The events emitted on the bus between two states. *)
Definition emitted_since (s s' : ActionsMenu) : list Event :=
  drop (length (sc_events (scene s))) (sc_events (scene s')).

(** The weapon menu right after [show] for a unit carrying a sword and an
    axe. *)
Definition shownMenu : ActionsMenu :=
  exec (show (menu := WeaponSelectorMenu) unitTile (Some {| opt_tile := Some unitTile |}))
    newWeaponSelectorMenu.

(** The panel of the weapon menu painted at the origin of an empty layer for
    [n] items. *)
Definition paintedPanel (n : Z) : gmap (Z * Z) Z :=
  layer_tiles (layer (exec (createContainer WeaponSelectorMenu_linesTiles
                              {| coord := {| coord_x := 0; coord_y := 0 |}; itemsCount := n |})
                        newWeaponSelectorMenu)).

(** A 12 x 4 tilemap. *)
Definition smallLayer : Layer :=
  {| layer_visible := true; layer_tiles := ∅; tilemap_width := 12;
     tilemap_height := 4; layer_tileWidth := 16; layer_tileHeight := 16 |}.

(** The menu as the keyboard handlers see it when three buttons are
    navigable and the cursor is on the last one. *)
Definition threeButtons : ActionsMenu :=
  set_cursorIndex (Num 2)
    (set_buttonsCount 3 (set_allCurrentButtons [0%nat; 1%nat; 2%nat] shownMenu)).

(** A weapon menu whose permanent container has no child. *)
Definition buttonlessMenu : ActionsMenu :=
  set_permanentButtons (set_c_list [] (permanentButtons newWeaponSelectorMenu))
    newWeaponSelectorMenu.

(** ** Auxiliary definitions for the further properties *)

(** [a] is a column of a line of [columns] put from column [x]. *)
Definition onRow (columns : list Z) (x : Z) (a : Z) : Prop :=
  x ≤ a < x + Z.of_nat (length columns).

(** What the position [(a, b)] holds after [createContainer] at [(x, y)] for
    [n] items on the tiles [t] of a [w] x [h] layer: on the layer the bottom
    line wins over a middle line, which wins over the top line; off the
    layer nothing is put. *)
Definition paintedAt (w h : Z) (lines : LinesTiles) (x y n : Z) (t : gmap (Z * Z) Z)
    (a b : Z) : option Z :=
  if decide (inBounds w h a b) then
    if decide (b = bottomRow y n ∧ onRow (bottom lines) x a)
    then bottom lines !! Z.to_nat (a - x)
    else if decide ((y + 1 ≤ b ≤ y + Z.of_nat (Z.to_nat n)) ∧ onRow (middle lines) x a)
    then middle lines !! Z.to_nat (a - x)
    else if decide (b = y ∧ onRow (top lines) x a)
    then top lines !! Z.to_nat (a - x)
    else t !! (a, b)
  else t !! (a, b).

(** The state [show] starts from once the options are read. *)
Definition with_options (options : option ActionsMenuShowOptions) (s : ActionsMenu) : ActionsMenu :=
  match options with
  | Some o => set_tile (opt_tile o) s
  | None => s
  end.

(** Where [showButtons] puts the permanent container for the panel
    coordinates [xy]. *)
Definition buttonsPosition (l : Layer) (xy : Coord) : Coord :=
  {| coord_x := coord_x (tileToWorldXY l (coord_x xy) (coord_y xy)) + coord_x textOffset;
     coord_y := coord_y (tileToWorldXY l (coord_x xy) (coord_y xy)) + coord_y textOffset |}.

(** The button store [show] leaves when the context tile is [t]. *)
Definition shown_buttons (t : option Tile) (s : ActionsMenu) : list ActionButton :=
  let l := c_list (permanentButtons s) in
  let bs := alter_each (λ i, set_onPointerOver (Some i)) l 0
              (buttons s ++ weaponButtonsFrom (contextWeapons t) 0) in
  match l with
  | h :: _ => alter (set_highlighted true) h bs
  | [] => bs
  end.

(** The navigable buttons are distinct objects of the store, and the one at
    index [i], and no other, is highlighted. *)
Definition highlight_at (s : ActionsMenu) (i : Z) : Prop :=
  NoDup (allCurrentButtons s) ∧
  ∀ k h, allCurrentButtons s !! k = Some h →
    ∃ b, buttons s !! h = Some b ∧ ab_highlighted b = bool_decide (Z.of_nat k = i).

(** The state after [k] presses of a key whose handler is [m]. *)
Fixpoint presses (m : M unit) (k : nat) (s : ActionsMenu) : ActionsMenu :=
  match k with
  | O => s
  | S k' => presses m k' (exec m s)
  end.

(** What [hide] and the menu never touch in a button: the options it was
    built with. *)
Definition same_options (b b' : ActionButton) : Prop :=
  ab_text b' = ab_text b ∧ ab_width b' = ab_width b ∧ ab_coord b' = ab_coord b ∧
  ab_onClick b' = ab_onClick b.

(** Three navigable buttons, the cursor and the highlight on the first. *)
Definition threeButtonsAtTop : ActionsMenu :=
  set_buttonsCount 3 (set_allCurrentButtons [0%nat; 1%nat; 2%nat] shownMenu).

(** A tile whose [tileUnit] property is missing, passed as context tile. *)
Definition noUnitOptions : option ActionsMenuShowOptions :=
  Some {| opt_tile := Some plainTile |}.

(** ** Basic facts *)

Ltac msimpl :=
  cbv [mbind M_bind mret M_ret gets modify throw chain exec returns]; simpl.

Lemma set_buttons_same (s : ActionsMenu) : set_buttons (buttons s) s = s.
Proof. by destruct s. Qed.

Lemma forEachIndexed_run {A : Type} (f : A → nat → M unit)
    (g : A → nat → ActionsMenu → ActionsMenu) :
  (∀ a i s, f a i s = (Normal (), g a i s)) →
  ∀ l k s, forEachIndexed f l k s = (Normal (), run_each g l k s).
Proof.
  intros Hf l. induction l as [|a l IH]; intros k s; simpl.
  - reflexivity.
  - msimpl. rewrite Hf. apply IH.
Qed.

Lemma run_each_buttons (f : nat → ActionButton → ActionButton)
    (g : handle → nat → ActionsMenu → ActionsMenu) :
  (∀ h i s, g h i s = set_buttons (alter (f i) h (buttons s)) s) →
  ∀ l k s, run_each g l k s = set_buttons (alter_each f l k (buttons s)) s.
Proof.
  intros Hg l. induction l as [|h l IH]; intros k s; simpl.
  - by rewrite set_buttons_same.
  - rewrite IH, Hg. reflexivity.
Qed.

Lemma forEachIndexed_buttons (f : nat → ActionButton → ActionButton) l k s :
  forEachIndexed (λ button index, update_button (f index) button) l k s
  = (Normal (), set_buttons (alter_each f l k (buttons s)) s).
Proof.
  rewrite (forEachIndexed_run _
             (λ h i s, set_buttons (alter (f i) h (buttons s)) s)) by done.
  by rewrite (run_each_buttons f).
Qed.

Lemma alter_each_length f l k bs : length (alter_each f l k bs) = length bs.
Proof.
  revert k bs. induction l as [|h l IH]; intros k bs; simpl; [done|].
  by rewrite IH, length_alter.
Qed.

(** A property of single buttons that every [f i] keeps is kept by
    [alter_each]. *)
Lemma alter_each_keeps (P : ActionButton → Prop) f l k bs (h : handle) :
  (∀ i b, P b → P (f i b)) →
  (∀ b, bs !! h = Some b → P b) →
  ∀ b, alter_each f l k bs !! h = Some b → P b.
Proof.
  intros Hf. revert k bs. induction l as [|h' l IH]; intros k bs Hbs b; simpl.
  - apply Hbs.
  - apply IH. intros b'. destruct (decide (h' = h)) as [->|Hne].
    + rewrite list_lookup_alter_eq. intros Heq.
      apply fmap_Some in Heq as (b0 & E & ->). by apply Hf, Hbs.
    + rewrite list_lookup_alter_ne by done. apply Hbs.
Qed.

Lemma alter_each_is_Some f l k bs (h : handle) :
  is_Some (alter_each f l k bs !! h) ↔ is_Some (bs !! h).
Proof.
  rewrite !lookup_lt_is_Some, alter_each_length. done.
Qed.

(** ** The loops, evaluated *)

Lemma set_layer_tiles_same (s : ActionsMenu) :
  set_layer (set_layer_tiles (layer_tiles (layer s)) (layer s)) s = s.
Proof. by destruct s as [? ? ? ? ? [] ? ? ? ?]. Qed.

Lemma createLine_eq columns x y s :
  createLine columns x y s
  = (Normal (),
     set_layer
       (set_layer_tiles
          (paintLine (tilemap_width (layer s)) (tilemap_height (layer s)) columns x y 0
             (layer_tiles (layer s))) (layer s)) s).
Proof.
  unfold createLine. generalize 0%nat as k. revert s.
  induction columns as [|v cols IH]; intros s k; simpl.
  - by rewrite set_layer_tiles_same.
  - msimpl. unfold putTileAt at 1. msimpl. rewrite IH.
    destruct (decide (inBounds (tilemap_width (layer s)) (tilemap_height (layer s))
                        (x + Z.of_nat k) y)); reflexivity.
Qed.

Lemma middleLinesLoop_eq columns n x y index bottomY s :
  middleLinesLoop columns n x y index bottomY s
  = (Normal (bottomY + Z.of_nat n),
     set_layer
       (set_layer_tiles
          (paintMiddle (tilemap_width (layer s)) (tilemap_height (layer s)) columns n x y
             index (layer_tiles (layer s))) (layer s)) s).
Proof.
  revert index bottomY s. induction n as [|n IH]; intros index bottomY s.
  - simpl. msimpl. by rewrite Z.add_0_r, set_layer_tiles_same.
  - cbn [middleLinesLoop paintMiddle]. msimpl. rewrite createLine_eq, IH.
    simpl. do 2 f_equal. lia.
Qed.

Lemma createContainer_eq lines param s :
  createContainer lines param s
  = (Normal This,
     set_layer
       (set_layer_tiles
          (paintContainer (tilemap_width (layer s)) (tilemap_height (layer s)) lines param
             (layer_tiles (layer s))) (layer s)) s).
Proof.
  unfold createContainer, paintContainer, bottomRow. msimpl.
  rewrite createLine_eq, middleLinesLoop_eq, createLine_eq. reflexivity.
Qed.

Lemma addOverEventButtons_eq s :
  addOverEventButtons s
  = (Normal This,
     set_buttons (alter_each (λ i, set_onPointerOver (Some i)) (allCurrentButtons s) 0
                    (buttons s)) s).
Proof.
  unfold addOverEventButtons. msimpl.
  by rewrite (forEachIndexed_buttons (λ i, set_onPointerOver (Some i))).
Qed.

Lemma unhover_loop l k s :
  forEachIndexed
    (λ button _,
       getActionButton button;;
       removeHighlight button;;
       update_button (set_onPointerOver None) button) l k s
  = ((if (unhover_pass l (buttons s)).1 then Normal () else TypeError),
     set_buttons (unhover_pass l (buttons s)).2 s).
Proof.
  revert k s. induction l as [|h l IH]; intros k s; simpl.
  - by rewrite set_buttons_same.
  - unfold getActionButton, removeHighlight, update_button. msimpl.
    destruct (destroyed_at (buttons s) h); simpl.
    + by rewrite set_buttons_same.
    + rewrite IH. simpl. by rewrite list_alter_alter_eq.
Qed.

Lemma removeOverEventButtons_eq s :
  removeOverEventButtons s
  = ((if (unhover_pass (allCurrentButtons s) (buttons s)).1 then Normal This else TypeError),
     set_buttons (unhover_pass (allCurrentButtons s) (buttons s)).2 s).
Proof.
  unfold removeOverEventButtons. msimpl. rewrite unhover_loop.
  by destruct (unhover_pass (allCurrentButtons s) (buttons s)).1.
Qed.

Lemma destroyChildren_eq n index s c :
  additionalButtons s = Some c →
  destroyChildren n index s
  = (Normal (),
     set_additionalButtons
       (Some (set_c_list (destroy_pass n index (c_list c) (buttons s)).1 c))
       (set_buttons (destroy_pass n index (c_list c) (buttons s)).2 s)).
Proof.
  revert index s c. induction n as [|n IH]; intros index s c Hc.
  - simpl. msimpl. rewrite set_buttons_same. destruct c. by destruct s; simpl in *; subst.
  - cbn [destroyChildren destroy_pass]. msimpl. rewrite Hc.
    destruct (c_list c !! index) as [h|] eqn:Eh.
    + unfold button_destroy, update_button. msimpl.
      by rewrite (IH _ _ (set_c_list (delete index (c_list c)) c)).
    + by rewrite (IH _ _ c).
Qed.

Lemma destroyAdditionalButtons_eq s :
  destroyAdditionalButtons s
  = (Normal This,
     match additionalButtons s with
     | Some c =>
         set_additionalButtons
           (Some (set_c_list (destroy_pass (length (c_list c)) 0 (c_list c) (buttons s)).1 c))
           (set_buttons (destroy_pass (length (c_list c)) 0 (c_list c) (buttons s)).2 s)
     | None => s
     end).
Proof.
  unfold destroyAdditionalButtons. msimpl.
  destruct (additionalButtons s) as [c|] eqn:Hc; [|done].
  by rewrite (destroyChildren_eq _ _ _ c Hc).
Qed.

Lemma alter_each_cons f (h : handle) l k bs :
  alter_each f (h :: l) k bs = alter_each f l (S k) (alter (f k) h bs).
Proof. reflexivity. Qed.

Lemma alter_each_not_in f l k bs (h : handle) :
  h ∉ l → alter_each f l k bs !! h = bs !! h.
Proof.
  revert k bs. induction l as [|h' l IH]; intros k bs Hh; [done|].
  apply not_elem_of_cons in Hh as [Hne Hh].
  rewrite alter_each_cons, IH by done. by apply list_lookup_alter_ne.
Qed.

Lemma alter_each_const (g : ActionButton → ActionButton) l k k' bs :
  alter_each (λ _, g) l k bs = alter_each (λ _, g) l k' bs.
Proof.
  revert k k' bs. induction l as [|h l IH]; intros k k' bs; [done|].
  simpl. apply IH.
Qed.

(** [destroyChildren] destroys the children at the even positions and leaves
    those at the odd positions in the container. *)
Lemma destroy_pass_split n (p r : list handle) bs :
  (length r ≤ n)%nat →
  destroy_pass n (length p) (p ++ r) bs
  = (p ++ odds r, alter_each (λ _, set_destroyed true) (evens r) 0 bs).
Proof.
  revert p r bs. induction n as [|n IH]; intros p r bs Hn.
  - destruct r; [|simpl in Hn; lia]. simpl. by rewrite !app_nil_r.
  - cbn [destroy_pass]. destruct r as [|a r].
    + rewrite app_nil_r, lookup_ge_None_2 by lia.
      replace (S (length p)) with (length p + 1)%nat by lia.
      assert (∀ m k bs', (length p ≤ k)%nat → destroy_pass m k p bs' = (p, bs')) as Hidle.
      { clear. intros m. induction m as [|m IHm]; intros k bs' Hk; [done|].
        cbn [destroy_pass]. rewrite lookup_ge_None_2 by lia. apply IHm. lia. }
      rewrite Hidle by lia. simpl. by rewrite app_nil_r.
    + rewrite list_lookup_middle by done.
      assert (delete (length p) (p ++ a :: r) = p ++ r) as ->.
      { rewrite delete_middle. done. }
      destruct r as [|b r].
      * rewrite app_nil_r.
        assert (∀ m k bs', (length p ≤ k)%nat → destroy_pass m k p bs' = (p, bs')) as Hidle.
        { clear. intros m. induction m as [|m IHm]; intros k bs' Hk; [done|].
          cbn [destroy_pass]. rewrite lookup_ge_None_2 by lia. apply IHm. lia. }
        rewrite Hidle by lia. simpl. by rewrite app_nil_r.
      * replace (p ++ b :: r) with ((p ++ [b]) ++ r) by (by rewrite <- app_assoc).
        replace (S (length p)) with (length (p ++ [b])) by (rewrite length_app; simpl; lia).
        rewrite IH by (simpl in Hn; lia). simpl.
        by rewrite <- app_assoc, (alter_each_const _ _ 1 0).
Qed.

Lemma destroy_pass_all (l : list handle) bs :
  destroy_pass (length l) 0 l bs
  = (odds l, alter_each (λ _, set_destroyed true) (evens l) 0 bs).
Proof. exact (destroy_pass_split (length l) [] l bs (le_n _)). Qed.

Lemma createWeaponButtons_eq weapons index s :
  createWeaponButtons weapons index s
  = (Normal (seq (length (buttons s)) (length weapons)),
     set_buttons (buttons s ++ weaponButtonsFrom weapons index) s).
Proof.
  revert index s. induction weapons as [|w ws IH]; intros index s.
  - simpl. msimpl. by rewrite app_nil_r, set_buttons_same.
  - cbn [createWeaponButtons weaponButtonsFrom length seq]. msimpl.
    unfold createWeaponButton, newActionButton. rewrite IH. simpl.
    rewrite length_app, <- app_assoc. simpl.
    by replace (length (buttons s) + 1)%nat with (S (length (buttons s))) by lia.
Qed.

Lemma createAdditionalButtons_eq s :
  WeaponSelectorMenu_createAdditionalButtons s
  = match tile s with
    | None =>
        (Normal {| c_list := []; c_visible := true;
                   c_position := {| coord_x := 0; coord_y := 0 |}; c_displayHeight := 0 |}, s)
    | Some t =>
        match tile_tileUnit t with
        | None => (TypeError, s)
        | Some weapons =>
            (Normal {| c_list := seq (length (buttons s)) (length weapons); c_visible := true;
                       c_position := {| coord_x := 0; coord_y := 0 |}; c_displayHeight := 0 |},
             set_buttons (buttons s ++ weaponButtonsFrom weapons 0) s)
        end
    end.
Proof.
  unfold WeaponSelectorMenu_createAdditionalButtons, scene_add_container. msimpl.
  destruct (tile s) as [t|]; [|done].
  destruct (tile_tileUnit t) as [weapons|]; [|done].
  by rewrite createWeaponButtons_eq.
Qed.

(** ** The methods, evaluated *)

#[local] Arguments js_index : simpl never.
#[local] Arguments getMenuCoord : simpl never.
#[local] Arguments tileToWorldXY : simpl never.
#[local] Arguments paintContainer : simpl never.
#[local] Arguments alter_each : simpl never.

Lemma weaponButtonsFrom_length ws k : length (weaponButtonsFrom ws k) = length ws.
Proof. revert k. induction ws as [|w ws IH]; intros k; simpl; [done|]. by rewrite IH. Qed.

Lemma weaponButtonsFrom_lookup ws k i w :
  ws !! i = Some w → weaponButtonsFrom ws k !! i = Some (weaponButton w (k + i)).
Proof.
  revert k i. induction ws as [|w' ws IH]; intros k [|i]; simpl; try done.
  - intros [= ->]. by rewrite Nat.add_0_r.
  - intros Hw. rewrite (IH (S k) i Hw). do 2 f_equal. lia.
Qed.

Lemma no_key_left (l : list Key) :
  filter (λ k', k' ≠ KeyENTER) (filter (λ k', k' ≠ KeyDOWN) (filter (λ k', k' ≠ KeyUP) l)) = [].
Proof.
  induction l as [|k l IH]; [done|].
  destruct k; rewrite ?filter_cons_True, ?filter_cons_False by (done || (intros H; by apply H));
    apply IH.
Qed.

Lemma unhover_pass_length l bs : length (unhover_pass l bs).2 = length bs.
Proof.
  revert bs. induction l as [|h l IH]; intros bs; simpl; [done|].
  destruct (destroyed_at bs h); [done|]. by rewrite IH, length_alter.
Qed.

(** A property of single buttons that taking highlight and hover handler
    away keeps is kept by the loop of [removeOverEventButtons], wherever it
    stops. *)
Lemma unhover_pass_keeps (P : ActionButton → Prop) l bs (h : handle) :
  (∀ b, P b → P (set_onPointerOver None (set_highlighted false b))) →
  (∀ b, bs !! h = Some b → P b) →
  ∀ b, (unhover_pass l bs).2 !! h = Some b → P b.
Proof.
  intros Hf. revert bs. induction l as [|h' l IH]; intros bs Hbs b; simpl; [apply Hbs|].
  destruct (destroyed_at bs h'); [apply Hbs|].
  apply IH. intros b'. destruct (decide (h' = h)) as [->|Hne].
  - rewrite list_lookup_alter_eq. intros Heq.
    apply fmap_Some in Heq as (b0 & E & ->). by apply Hf, Hbs.
  - rewrite list_lookup_alter_ne by done. apply Hbs.
Qed.

Lemma destroyed_at_alter f bs (h h' : handle) :
  (∀ b, ab_destroyed (f b) = ab_destroyed b) →
  destroyed_at (alter f h' bs) h = destroyed_at bs h.
Proof.
  intros Hf. unfold destroyed_at. destruct (decide (h' = h)) as [->|Hne].
  - rewrite list_lookup_alter_eq. destruct (bs !! h); simpl; [apply Hf|done].
  - by rewrite list_lookup_alter_ne.
Qed.

(** Over live buttons the loop comes to its end. *)
Lemma unhover_pass_live l bs :
  (∀ h, h ∈ l → destroyed_at bs h = false) →
  unhover_pass l bs
  = (true, alter_each (λ _ b, set_onPointerOver None (set_highlighted false b)) l 0 bs).
Proof.
  revert bs. induction l as [|h l IH]; intros bs Hl; [done|].
  simpl. rewrite (Hl h) by apply list_elem_of_here.
  rewrite IH.
  - rewrite alter_each_cons. by rewrite (alter_each_const _ _ 1 0).
  - intros h' Hh'. rewrite destroyed_at_alter by done. apply Hl. by apply list_elem_of_further.
Qed.

Lemma destroyed_at_alter_each_not_in f l k bs (h : handle) :
  h ∉ l → destroyed_at (alter_each f l k bs) h = destroyed_at bs h.
Proof.
  revert k bs. induction l as [|h' l IH]; intros k bs Hh; [done|].
  apply not_elem_of_cons in Hh as [Hne Hh]. rewrite alter_each_cons, IH by done.
  unfold destroyed_at. by rewrite list_lookup_alter_ne.
Qed.

Lemma evens_subseteq (l : list handle) h : h ∈ evens l → h ∈ l.
Proof.
  enough (∀ l : list handle,
            (∀ h, h ∈ evens l → h ∈ l) ∧ (∀ a h, h ∈ evens (a :: l) → h ∈ a :: l)) as H
    by apply H.
  clear. intros l. induction l as [|b l [IH1 IH2]]; (split; [|intros a]); intros h; simpl.
  - done.
  - done.
  - apply IH2.
  - intros [->|Hin]%elem_of_cons; [apply list_elem_of_here|].
    do 2 apply list_elem_of_further. by apply IH1.
Qed.

(** [hide], whatever the state: the result and the fields it leaves.  It
    throws exactly when [removeOverEventButtons] meets a destroyed button,
    and then the timer is not set and list, count and cursor are not
    reset. *)
Lemma hide_any s :
  ∃ r s', hide s = (r, s') ∧
    r = (if hide_completes s then Normal Undefined else TypeError) ∧
    tile s' = tile s ∧ pointerups s' = pointerups s ∧ isVisible s' = false ∧
    layer_tiles (layer s') = ∅ ∧
    tilemap_width (layer s') = tilemap_width (layer s) ∧
    tilemap_height (layer s') = tilemap_height (layer s) ∧
    sc_keyboard (scene s') = [] ∧
    sc_events (scene s') = sc_events (scene s) ∧
    sc_console (scene s') = sc_console (scene s) ∧
    c_list (permanentButtons s') = c_list (permanentButtons s) ∧
    c_visible (permanentButtons s') = false ∧
    c_position (permanentButtons s') = c_position (permanentButtons s) ∧
    contextChildren s' = odds (contextChildren s) ∧
    buttons s' = hidden_buttons s ∧
    buttonsCount s' = (if hide_completes s then 0 else buttonsCount s) ∧
    cursorIndex s' = (if hide_completes s then Num 0 else cursorIndex s) ∧
    allCurrentButtons s' = (if hide_completes s then [] else allCurrentButtons s) ∧
    sc_timers (scene s')
      = sc_timers (scene s)
        ++ (if hide_completes s
            then [(100, {| ev_name := "subscribeMapEvents"; ev_args := [] |})] else []).
Proof.
  unfold hide, destroyContainer, disableEvents, enableMapEvents, reinitializeProperties,
    layer_setVisible, keyboard_off, setTimeout_emit, hidden_buttons, hide_completes,
    contextChildren, isVisible.
  msimpl. rewrite destroyAdditionalButtons_eq. simpl.
  destruct (additionalButtons s) as [c|] eqn:E; simpl.
  - rewrite destroy_pass_all. simpl. rewrite removeOverEventButtons_eq. simpl.
    destruct (unhover_pass (allCurrentButtons s)
                (alter_each (λ _, set_destroyed true) (evens (c_list c)) 0 (buttons s)))
      as [[] bs'] eqn:Eu; simpl.
    all: (eexists _, _; split; [reflexivity|]); simpl; rewrite ?no_key_left, ?app_nil_r.
    all: repeat split.
  - change (alter_each (λ _, set_destroyed true) [] 0 (buttons s)) with (buttons s).
    rewrite removeOverEventButtons_eq. simpl.
    destruct (unhover_pass (allCurrentButtons s) (buttons s)) as [[] bs'] eqn:Eu; simpl.
    all: (eexists _, _; split; [reflexivity|]); simpl; rewrite ?E, ?no_key_left, ?app_nil_r.
    all: repeat split.
Qed.

(** When no navigable button is a context child or destroyed, [hide] comes
    to its end. *)
Lemma navigable_live_completes s :
  navigable_live s →
  hide_completes s = true ∧
  hidden_buttons s
  = alter_each (λ _ b, set_onPointerOver None (set_highlighted false b)) (allCurrentButtons s) 0
      (alter_each (λ _, set_destroyed true) (evens (contextChildren s)) 0 (buttons s)).
Proof.
  intros Hlive. unfold hide_completes, hidden_buttons.
  rewrite unhover_pass_live; [done|].
  intros h Hh. unfold navigable_live in Hlive. rewrite Forall_forall in Hlive.
  destruct (Hlive h Hh) as [Hnot Hd].
  rewrite destroyed_at_alter_each_not_in; [done|].
  intros Hin. by apply Hnot, evens_subseteq.
Qed.

Lemma hide_run s :
  navigable_live s →
  ∃ s', hide s = (Normal Undefined, s') ∧
    buttonsCount s' = 0 ∧ cursorIndex s' = Num 0 ∧ allCurrentButtons s' = [] ∧
    sc_timers (scene s')
      = sc_timers (scene s) ++ [(100, {| ev_name := "subscribeMapEvents"; ev_args := [] |})] ∧
    sc_console (scene s') = sc_console (scene s) ∧
    sc_events (scene s') = sc_events (scene s) ∧
    buttons s'
    = alter_each (λ _ b, set_onPointerOver None (set_highlighted false b))
        (allCurrentButtons s) 0
        (alter_each (λ _, set_destroyed true) (evens (contextChildren s)) 0 (buttons s)).
Proof.
  intros Hlive. destruct (navigable_live_completes s Hlive) as [Hc Hb].
  destruct (hide_any s)
    as (r & s' & E & Hr & _ & _ & _ & _ & _ & _ & _ & Hev & Hco & _ & _ & _ & _ & Hbs & Hn & Hcur & Hl & Htm).
  rewrite Hc in *. subst r. exists s'. rewrite <- Hb. done.
Qed.

Lemma show_options {menu : MenuClass} cursor o s :
  show cursor (Some o) s = show cursor None (set_tile (opt_tile o) s).
Proof. reflexivity. Qed.

(** [show] without options on the weapon menu, when the stored tile (if
    any) has its unit data: it throws exactly when there is no permanent
    button, and either way leaves the fields as listed. *)
Lemma show_None_run cursor s :
  unit_known (tile s) →
  ∃ r s', show (menu := WeaponSelectorMenu) cursor None s = (r, s') ∧
    (r = if decide (c_list (permanentButtons s) = []) then TypeError else Normal ()) ∧
    allCurrentButtons s' = c_list (permanentButtons s) ∧
    buttonsCount s' = Z.of_nat (length (c_list (permanentButtons s))) ∧
    cursorIndex s' = cursorIndex s ∧
    tile s' = tile s ∧
    c_list (permanentButtons s') = c_list (permanentButtons s) ∧
    (c_list <$> additionalButtons s')
      = Some (seq (length (buttons s)) (length (contextWeapons (tile s)))) ∧
    length (buttons s') = (length (buttons s) + length (contextWeapons (tile s)))%nat ∧
    pointerups s' = pointerups s.
Proof.
  intros Hunit. unfold show. msimpl.
  unfold layer_setVisible, disableMapEvents, events_emit, enableEvents, keyboard_on,
    showButtons, highlightFirstButton, addHighlight, update_button. msimpl.
  rewrite createAdditionalButtons_eq. simpl.
  destruct (tile s) as [t|] eqn:Et; simpl in *.
  - destruct Hunit as [ws Hws]. rewrite Hws. simpl.
    rewrite createContainer_eq. simpl. rewrite addOverEventButtons_eq. simpl.
    unfold js_index. simpl.
    destruct (c_list (permanentButtons s)) as [|h l] eqn:El; simpl;
      (eexists _, _; split; [reflexivity|]); simpl; rewrite ?El, ?Et;
      repeat split; try done.
    all: rewrite ?length_alter, ?alter_each_length, length_app, weaponButtonsFrom_length; done.
  - rewrite createContainer_eq. simpl. rewrite addOverEventButtons_eq. simpl.
    unfold js_index. simpl.
    destruct (c_list (permanentButtons s)) as [|h l] eqn:El; simpl;
      (eexists _, _; split; [reflexivity|]); simpl; rewrite ?El, ?Et;
      repeat split; try done.
    all: rewrite ?length_alter, ?alter_each_length; lia.
Qed.

Lemma show_run cursor options s :
  unit_known (contextTile options s) →
  ∃ r s', show (menu := WeaponSelectorMenu) cursor options s = (r, s') ∧
    (r = if decide (c_list (permanentButtons s) = []) then TypeError else Normal ()) ∧
    allCurrentButtons s' = c_list (permanentButtons s) ∧
    buttonsCount s' = Z.of_nat (length (c_list (permanentButtons s))) ∧
    cursorIndex s' = cursorIndex s ∧
    tile s' = contextTile options s ∧
    c_list (permanentButtons s') = c_list (permanentButtons s) ∧
    (c_list <$> additionalButtons s')
      = Some (seq (length (buttons s)) (length (contextWeapons (contextTile options s)))) ∧
    length (buttons s')
      = (length (buttons s) + length (contextWeapons (contextTile options s)))%nat ∧
    pointerups s' = pointerups s.
Proof.
  destruct options as [o|]; cbn [contextTile]; [|apply show_None_run].
  intros Hunit. exact (show_None_run cursor (set_tile (opt_tile o) s) Hunit).
Qed.

(** Whatever [show] does afterwards, and however it ends, the [tile] field
    holds the context tile. *)
Lemma show_tile cursor options s :
  tile (exec (show (menu := WeaponSelectorMenu) cursor options) s) = contextTile options s.
Proof.
  assert (∀ s0, tile (exec (show (menu := WeaponSelectorMenu) cursor None) s0) = tile s0) as Hnone.
  { intros s0. destruct (tile s0) as [t|] eqn:Et.
    - destruct (tile_tileUnit t) as [ws|] eqn:Ews.
      + destruct (show_None_run cursor s0) as (r & s' & E & _ & _ & _ & _ & Ht & _).
        { rewrite Et. simpl. rewrite Ews. eauto. }
        unfold exec. rewrite E. simpl. by rewrite Ht.
      + unfold exec, show. msimpl. unfold layer_setVisible. msimpl.
        rewrite createAdditionalButtons_eq. simpl. rewrite Et, Ews. simpl. done.
    - destruct (show_None_run cursor s0) as (r & s' & E & _ & _ & _ & _ & Ht & _).
      { by rewrite Et. }
      unfold exec. rewrite E. simpl. by rewrite Ht. }
  destruct options as [o|]; cbn [contextTile]; [|apply Hnone].
  exact (Hnone (set_tile (opt_tile o) s)).
Qed.

Lemma js_index_in_range {A : Type} (l : list A) (i : Z) :
  0 ≤ i < Z.of_nat (length l) → ∃ a, js_index l (Num i) = Some a.
Proof.
  intros Hi. unfold js_index. rewrite decide_True by lia.
  destruct (lookup_lt_is_Some_2 l (Z.to_nat i)) as [a Ha]; [lia|]. eauto.
Qed.

Lemma cursorIndexChanged_in_range s i j :
  cursorIndex s = Num i →
  0 ≤ i < Z.of_nat (length (allCurrentButtons s)) →
  0 ≤ j < Z.of_nat (length (allCurrentButtons s)) →
  ∃ s', cursorIndexChanged (Num j) s = (Normal (), s') ∧
    cursorIndex s' = Num j ∧
    allCurrentButtons s' = allCurrentButtons s ∧
    buttonsCount s' = buttonsCount s.
Proof.
  intros Hcur Hi Hj. unfold cursorIndexChanged. msimpl. rewrite Hcur. simpl.
  case_bool_decide as Hij.
  - subst j. eauto.
  - rewrite Hcur. destruct (js_index_in_range (allCurrentButtons s) i Hi) as (a & Ha).
    destruct (js_index_in_range (allCurrentButtons s) j Hj) as (b & Hb).
    rewrite Ha. unfold removeHighlight, addHighlight, update_button. msimpl.
    rewrite Hb. eauto.
Qed.

Lemma keydownDOWN_in_range s i :
  cursor_in_range s i →
  ∃ s', keydownDOWN s = (Normal (), s') ∧
    cursor_in_range s' ((i + 1) mod buttonsCount s) ∧ buttonsCount s' = buttonsCount s.
Proof.
  intros (Hcur & Hi & Hlen). unfold keydownDOWN. msimpl. rewrite Hcur. simpl.
  rewrite decide_False by lia.
  rewrite Z.rem_mod_nonneg by lia.
  assert (0 ≤ (i + 1) mod buttonsCount s < buttonsCount s) as Hj by (apply Z.mod_pos_bound; lia).
  destruct (cursorIndexChanged_in_range s i ((i + 1) mod buttonsCount s))
    as (s' & Hrun & Hc & Hl & Hn); [done|lia|lia|].
  exists s'. unfold cursor_in_range. rewrite Hl, Hn. eauto.
Qed.

Lemma keydownUP_in_range s i :
  cursor_in_range s i →
  ∃ s', keydownUP s = (Normal (), s') ∧
    cursor_in_range s' ((i - 1 + buttonsCount s) mod buttonsCount s) ∧
    buttonsCount s' = buttonsCount s.
Proof.
  intros (Hcur & Hi & Hlen). unfold keydownUP. msimpl. rewrite Hcur. simpl.
  set (n := buttonsCount s) in *.
  assert (0 ≤ (i - 1 + n) mod n < n) as Hj by (apply Z.mod_pos_bound; lia).
  assert ((if bool_decide (i - 1 < 0) then Num (n - 1) else Num (i - 1))
          = Num ((i - 1 + n) mod n)) as ->.
  { case_bool_decide.
    - assert (i = 0) as -> by lia. f_equal. rewrite Z.mod_small; lia.
    - f_equal. rewrite <- (Z.mod_small (i - 1) n) at 1 by lia.
      rewrite <- Z.add_mod_idemp_r, Z.mod_same, Z.add_0_r by lia. done. }
  destruct (cursorIndexChanged_in_range s i ((i - 1 + n) mod n))
    as (s' & Hrun & Hc & Hl & Hn); [done|lia|lia|].
  exists s'. unfold cursor_in_range. rewrite Hl, Hn. eauto.
Qed.

Lemma down_up_index (i n : Z) : 0 ≤ i < n → (((i + 1) mod n) - 1 + n) mod n = i.
Proof.
  intros Hi. destruct (decide (i + 1 = n)) as [E|E].
  - rewrite E, Z.mod_same by lia. replace (0 - 1 + n) with i by lia. apply Z.mod_small; lia.
  - rewrite (Z.mod_small (i + 1)) by lia. replace (i + 1 - 1 + n) with (i + 1 * n) by lia.
    rewrite Z.mod_add by lia. apply Z.mod_small; lia.
Qed.

Lemma up_down_index (i n : Z) : 0 ≤ i < n → (((i - 1 + n) mod n) + 1) mod n = i.
Proof.
  intros Hi. destruct (decide (i = 0)) as [->|E].
  - rewrite (Z.mod_small (0 - 1 + n)) by lia. replace (0 - 1 + n + 1) with n by lia.
    apply Z.mod_same; lia.
  - replace (i - 1 + n) with (i - 1 + 1 * n) by lia. rewrite Z.mod_add by lia.
    rewrite (Z.mod_small (i - 1)) by lia. replace (i - 1 + 1) with i by lia.
    apply Z.mod_small; lia.
Qed.

(** ** The navigable list built by [show] *)

(** On every state of the weapon menu whose context tile has its unit data,
    the navigable list [show] leaves is the permanent list, whatever
    [createAdditionalButtons] returned. *)
Lemma show_navigable_list cursor options s :
  unit_known (contextTile options s) →
  let s' := exec (show (menu := WeaponSelectorMenu) cursor options) s in
  allCurrentButtons s' = c_list (permanentButtons s') ∧
  buttonsCount s' = Z.of_nat (length (c_list (permanentButtons s'))) ∧
  (length <$> (c_list <$> additionalButtons s'))
    = Some (length (contextWeapons (contextTile options s))).
Proof.
  intros Hunit.
  destruct (show_run cursor options s Hunit)
    as (r & s1 & E & _ & Hl & Hn & _ & _ & Hp & Ha & _).
  unfold exec. rewrite E. simpl. rewrite Hl, Hn, Hp, Ha. simpl.
  by rewrite length_seq.
Qed.

(** C1 (the code departs from the claim).  Showing the weapon menu for a unit
    with two weapons succeeds; the permanent container holds P = 1 button
    (handle 0) and [createAdditionalButtons] returns N = 2 buttons (handles
    1 and 2), but the navigable list is the permanent list alone and
    [buttonsCount] is 1, not N + P = 3: the array [concat] builds is
    dropped. *)
Theorem C1_show_drops_context_buttons :
  returns (show (menu := WeaponSelectorMenu) unitTile (Some {| opt_tile := Some unitTile |}))
    newWeaponSelectorMenu = true ∧
  c_list (permanentButtons shownMenu) = [0%nat] ∧
  (c_list <$> additionalButtons shownMenu) = Some [1%nat; 2%nat] ∧
  allCurrentButtons shownMenu = [0%nat] ∧
  buttonsCount shownMenu = 1.
Proof. vm_compute. repeat split. Qed.

(** ** The painted panel *)

(** The bottom row is [itemsCount + 1] rows below the top one only for three
    items: [bottomY] starts [max 0 (itemsCount - 2)] rows down and is then
    advanced once per middle line. *)
Lemma bottomRow_contiguous (y n : Z) : 0 ≤ n → bottomRow y n = y + n + 1 ↔ n = 3.
Proof. unfold bottomRow. lia. Qed.

(** C3 (the code departs from the claim).  For one item the bottom line is
    put at row y + 1, over the only middle line (column 0 holds the bottom
    code 2734, not the middle code 2704) and row y + 2 stays empty; for four
    items rows y + 1 .. y + 4 are middle lines, row y + 5 stays empty and
    the bottom line is at row y + 6. *)
Theorem C3_bottom_row_misplaced :
  paintedPanel 1 !! (0, 0) = Some 2674 ∧
  paintedPanel 1 !! (0, 1) = Some 2734 ∧
  paintedPanel 1 !! (0, 2) = None ∧
  paintedPanel 4 !! (0, 0) = Some 2674 ∧
  paintedPanel 4 !! (0, 1) = Some 2704 ∧
  paintedPanel 4 !! (0, 4) = Some 2704 ∧
  paintedPanel 4 !! (0, 5) = None ∧
  paintedPanel 4 !! (0, 6) = Some 2734.
Proof. vm_compute. repeat split. Qed.

(** ** Panel placement *)

(** C4, counterexample.  On the 30 x 20 map with ten buttons, the tile
    (5, 9) gives the panel row -2; on a 12 x 4 map with one button, the tile
    (6, 2) gives the panel column -2. *)
Lemma C4_panel_outside_map :
  getMenuCoord WeaponSelectorMenu_linesTiles
    {| tile_x := 5; tile_y := 9; tile_tileUnit := None |}
    (set_buttonsCount 10 newWeaponSelectorMenu)
  = {| coord_x := 6; coord_y := -2 |} ∧
  getMenuCoord WeaponSelectorMenu_linesTiles
    {| tile_x := 6; tile_y := 2; tile_tileUnit := None |}
    (set_layer smallLayer (set_buttonsCount 1 newWeaponSelectorMenu))
  = {| coord_x := -2; coord_y := 0 |}.
Proof. vm_compute. split; reflexivity. Qed.

(** C4, amended.  For a reference tile inside a map at least twice the panel
    width wide and at least 2 * (buttonsCount + 2) - 1 rows high, the
    coordinates [getMenuCoord] returns keep the panel of width
    [getPanelWidth] and height [buttonsCount + 2] inside the map. *)
Theorem C4_getMenuCoord_within_map (lines : LinesTiles) (cursor : Tile) (s : ActionsMenu) :
  let width := tilemap_width (layer s) in
  let height := tilemap_height (layer s) in
  let panelWidth := getPanelWidth lines in
  let panelHeight := buttonsCount s + 2 in
  0 ≤ tile_x cursor < width →
  0 ≤ tile_y cursor < height →
  2 * panelWidth ≤ width →
  2 * panelHeight - 1 ≤ height →
  let c := getMenuCoord lines cursor s in
  0 ≤ coord_x c ∧ coord_x c + panelWidth ≤ width ∧
  0 ≤ coord_y c ∧ coord_y c + panelHeight ≤ height.
Proof.
  intros width height panelWidth panelHeight Hx Hy Hw Hh. unfold getMenuCoord.
  fold panelWidth panelHeight width height. simpl.
  repeat case_bool_decide; lia.
Qed.

Lemma C4_getMenuCoord_within_map_witness :
  let cursor := {| tile_x := 25; tile_y := 18; tile_tileUnit := None |} in
  let s := set_buttonsCount 1 newWeaponSelectorMenu in
  let c := getMenuCoord WeaponSelectorMenu_linesTiles cursor s in
  c = {| coord_x := 17; coord_y := 16 |} ∧
  0 ≤ coord_x c ∧ coord_x c + 8 ≤ 30 ∧ 0 ≤ coord_y c ∧ coord_y c + 3 ≤ 20.
Proof.
  split; [vm_compute; reflexivity|].
  apply (C4_getMenuCoord_within_map WeaponSelectorMenu_linesTiles
           {| tile_x := 25; tile_y := 18; tile_tileUnit := None |}
           (set_buttonsCount 1 newWeaponSelectorMenu)); vm_compute; intuition congruence.
Defined.

(** ** Cursor navigation *)

(** C5.  With the cursor at index [i] of a navigable list of
    [buttonsCount] >= 1 buttons, DOWN returns and leaves the cursor at
    (i + 1) mod buttonsCount, UP returns and leaves it at
    (i - 1 + buttonsCount) mod buttonsCount; both indices are in
    [0, buttonsCount); DOWN then UP and UP then DOWN lead back to [i]. *)
Theorem C5_cursor_navigation (s : ActionsMenu) (i : Z) :
  cursor_in_range s i →
  let n := buttonsCount s in
  returns keydownDOWN s = true ∧
  cursorIndex (exec keydownDOWN s) = Num ((i + 1) mod n) ∧
  returns keydownUP s = true ∧
  cursorIndex (exec keydownUP s) = Num ((i - 1 + n) mod n) ∧
  0 ≤ (i + 1) mod n < n ∧
  0 ≤ (i - 1 + n) mod n < n ∧
  cursorIndex (exec keydownUP (exec keydownDOWN s)) = Num i ∧
  cursorIndex (exec keydownDOWN (exec keydownUP s)) = Num i.
Proof.
  intros Hs n.
  destruct (keydownDOWN_in_range s i Hs) as (sd & Hd & Hsd & Hnd).
  destruct (keydownUP_in_range s i Hs) as (su & Hu & Hsu & Hnu).
  destruct (keydownUP_in_range sd _ Hsd) as (sdu & Hdu & Hsdu & _).
  destruct (keydownDOWN_in_range su _ Hsu) as (sud & Hud & Hsud & _).
  assert (0 ≤ i < n) as Hi by apply Hs.
  unfold returns, exec. rewrite Hd, Hu. simpl. rewrite Hdu, Hud. simpl.
  rewrite Hnd in Hsdu. rewrite Hnu in Hsud.
  fold n in Hsd, Hsu, Hsdu, Hsud.
  rewrite down_up_index in Hsdu by done. rewrite up_down_index in Hsud by done.
  destruct Hsd as (? & ? & _), Hsu as (? & ? & _), Hsdu as (? & _), Hsud as (? & _).
  repeat split; done || lia.
Qed.

Lemma C5_cursor_navigation_witness :
  cursor_in_range threeButtons 2 ∧
  cursorIndex (exec keydownDOWN threeButtons) = Num ((2 + 1) mod 3) ∧
  cursorIndex (exec keydownUP threeButtons) = Num ((2 - 1 + 3) mod 3) ∧
  cursorIndex (exec keydownUP (exec keydownDOWN threeButtons)) = Num 2 ∧
  cursorIndex (exec keydownDOWN (exec keydownUP threeButtons)) = Num 2.
Proof.
  assert (cursor_in_range threeButtons 2) as H.
  { unfold cursor_in_range. vm_compute. intuition congruence. }
  split; [exact H|].
  destruct (C5_cursor_navigation threeButtons 2 H) as (_ & Hd & _ & Hu & _ & _ & Hdu & Hud).
  repeat split; assumption.
Defined.

(** The range of the cursor is set up by [show] and kept by the hover
    handler. *)
Lemma show_cursor_in_range cursor options s :
  unit_known (contextTile options s) →
  cursorIndex s = Num 0 →
  c_list (permanentButtons s) ≠ [] →
  cursor_in_range (exec (show (menu := WeaponSelectorMenu) cursor options) s) 0.
Proof.
  intros Hunit Hcur Hne.
  destruct (show_run cursor options s Hunit) as (r & s' & E & _ & Hl & Hn & Hc & _).
  unfold exec, cursor_in_range. rewrite E. simpl. rewrite Hl, Hn, Hc.
  destruct (c_list (permanentButtons s)); [done|]. simpl. split; [done|]. lia.
Qed.

Lemma pointerOver_in_range s i h b index :
  cursor_in_range s i →
  buttons s !! h = Some b →
  ab_onPointerOver b = Some index →
  (index < length (allCurrentButtons s))%nat →
  ∃ s', pointerOver h s = (Normal (), s') ∧ cursor_in_range s' (Z.of_nat index).
Proof.
  intros (Hcur & Hi & Hlen) Hb Hover Hindex. unfold pointerOver. msimpl.
  rewrite Hb, Hover.
  destruct (cursorIndexChanged_in_range s i (Z.of_nat index))
    as (s' & Hrun & Hc & Hl & Hn); [done|lia|lia|].
  exists s'. unfold cursor_in_range. rewrite Hl, Hn. repeat split; done || lia.
Qed.

(** ** Hiding *)

Lemma destroyed_at_alter_each f l k bs (h : handle) :
  (∀ i b, ab_destroyed (f i b) = ab_destroyed b) →
  destroyed_at (alter_each f l k bs) h = destroyed_at bs h.
Proof.
  intros Hf. revert k bs. induction l as [|h' l IH]; intros k bs; [done|].
  rewrite alter_each_cons, IH. by apply destroyed_at_alter.
Qed.

Lemma destroyed_at_app bs bs' (h : handle) :
  (h < length bs)%nat → destroyed_at (bs ++ bs') h = destroyed_at bs h.
Proof. intros Hh. unfold destroyed_at. by rewrite lookup_app_l. Qed.

Lemma unhover_pass_destroyed l bs (h : handle) :
  destroyed_at (unhover_pass l bs).2 h = destroyed_at bs h.
Proof.
  revert bs. induction l as [|h' l IH]; intros bs; simpl; [done|].
  destruct (destroyed_at bs h'); [done|]. rewrite IH. by apply destroyed_at_alter.
Qed.

Lemma odds_subseteq (l : list handle) h : h ∈ odds l → h ∈ l.
Proof.
  enough (∀ l : list handle,
            (∀ h, h ∈ odds l → h ∈ l) ∧ (∀ a h, h ∈ odds (a :: l) → h ∈ a :: l)) as H
    by apply H.
  clear. intros l. induction l as [|b l [IH1 IH2]]; (split; [|intros a]); intros h; simpl.
  - done.
  - by intros ?%elem_of_nil.
  - apply IH2.
  - intros [->|Hin]%elem_of_cons; [apply list_elem_of_further, list_elem_of_here|].
    do 2 apply list_elem_of_further. by apply IH1.
Qed.

Lemma hidden_buttons_length s : length (hidden_buttons s) = length (buttons s).
Proof. unfold hidden_buttons. by rewrite unhover_pass_length, alter_each_length. Qed.

(** [show] destroys nothing: the buttons that were in the store keep their
    [destroyed] flag. *)
Lemma show_None_destroyed cursor s (h : handle) :
  unit_known (tile s) → (h < length (buttons s))%nat →
  destroyed_at (buttons (exec (show (menu := WeaponSelectorMenu) cursor None) s)) h
  = destroyed_at (buttons s) h.
Proof.
  intros Hunit Hh. unfold exec, show. msimpl.
  unfold layer_setVisible, disableMapEvents, events_emit, enableEvents, keyboard_on,
    showButtons, highlightFirstButton, addHighlight, update_button. msimpl.
  rewrite createAdditionalButtons_eq. simpl.
  destruct (tile s) as [t|] eqn:Et; simpl in *.
  - destruct Hunit as [ws Hws]. rewrite Hws. simpl.
    rewrite createContainer_eq. simpl. rewrite addOverEventButtons_eq. simpl.
    unfold js_index. simpl.
    destruct (c_list (permanentButtons s)) as [|h0 l] eqn:El; simpl.
    all: rewrite ?destroyed_at_alter by done; rewrite destroyed_at_alter_each by done.
    all: by apply destroyed_at_app.
  - rewrite createContainer_eq. simpl. rewrite addOverEventButtons_eq. simpl.
    unfold js_index. simpl.
    destruct (c_list (permanentButtons s)) as [|h0 l] eqn:El; simpl.
    all: rewrite ?destroyed_at_alter by done; by rewrite destroyed_at_alter_each by done.
Qed.

Lemma show_destroyed cursor options s (h : handle) :
  unit_known (contextTile options s) → (h < length (buttons s))%nat →
  destroyed_at (buttons (exec (show (menu := WeaponSelectorMenu) cursor options) s)) h
  = destroyed_at (buttons s) h.
Proof.
  destruct options as [o|]; cbn [contextTile]; [|apply show_None_destroyed].
  intros Hunit Hh. exact (show_None_destroyed cursor (set_tile (opt_tile o) s) h Hunit Hh).
Qed.

(** The constructor of the weapon menu leaves its permanent button in the
    store, outside any context container and not destroyed. *)
Lemma construct_permanent_live sc l :
  permanent_live (construct (menu := WeaponSelectorMenu) sc l).2.
Proof. unfold permanent_live. cbv. repeat constructor. inversion 1. Qed.

(** [show] keeps the permanent buttons live, and the navigable buttons it
    leaves are live and no children of the context container: the context
    buttons are new in the store, and only permanent buttons are navigable. *)
Lemma show_establishes_navigable_live cursor options s :
  unit_known (contextTile options s) →
  permanent_live s →
  let s' := exec (show (menu := WeaponSelectorMenu) cursor options) s in
  navigable_live s' ∧ permanent_live s'.
Proof.
  intros Hunit Hperm s'.
  pose proof (show_destroyed cursor options s) as Hd. fold s' in Hd.
  destruct (show_run cursor options s Hunit)
    as (r & s1 & E & _ & Hl & _ & _ & _ & Hp & Ha & Hlen & _).
  assert (s' = s1) as -> by (unfold s', exec; by rewrite E).
  unfold navigable_live, permanent_live, contextChildren in *.
  rewrite Hl, Hp, Ha, Hlen. simpl.
  rewrite Forall_forall in Hperm. split; apply Forall_forall; intros h Hh;
    destruct (Hperm h Hh) as (Hlt & _ & Hlive).
  - split; [rewrite elem_of_seq; lia|]. by rewrite Hd.
  - split; [lia|]. split; [rewrite elem_of_seq; lia|]. by rewrite Hd.
Qed.

(** [hide] keeps the permanent buttons live, however it ends: it destroys
    children of the context container only. *)
Lemma hide_keeps_permanent_live s :
  permanent_live s → permanent_live (exec hide s).
Proof.
  intros Hperm.
  destruct (hide_any s)
    as (r & s' & E & _ & _ & _ & _ & _ & _ & _ & _ & _ & _ & Hp & _ & _ & Hc & Hb & _).
  unfold exec. rewrite E. simpl.
  unfold permanent_live in *. rewrite Hp, Hc, Hb, hidden_buttons_length.
  rewrite Forall_forall in Hperm. apply Forall_forall. intros h Hh.
  destruct (Hperm h Hh) as (Hlt & Hnot & Hlive).
  split; [done|]. split; [intros Hin; by apply Hnot, odds_subseteq|].
  unfold hidden_buttons. rewrite unhover_pass_destroyed, destroyed_at_alter_each_not_in; [done|].
  intros Hin. by apply Hnot, evens_subseteq.
Qed.

(** Moving the cursor, by a key or by the pointer, destroys nothing and
    changes no list: the navigable and the permanent buttons stay live. *)
Lemma cursorIndexChanged_same_liveness newIndex s :
  same_liveness s (exec (cursorIndexChanged newIndex) s).
Proof.
  unfold same_liveness, exec, cursorIndexChanged, removeHighlight, addHighlight,
    update_button, contextChildren.
  msimpl. destruct (js_strict_eq (cursorIndex s) newIndex); [done|].
  destruct (js_index (allCurrentButtons s) (cursorIndex s)) as [prev|]; [|done]. simpl.
  destruct (js_index (allCurrentButtons s) newIndex) as [b|]; simpl.
  - repeat split; try done; [by rewrite !length_alter|].
    intros h. by rewrite !destroyed_at_alter.
  - repeat split; try done; [by rewrite length_alter|].
    intros h. by rewrite destroyed_at_alter.
Qed.

Lemma keydownDOWN_same_liveness s : same_liveness s (exec keydownDOWN s).
Proof. apply cursorIndexChanged_same_liveness. Qed.

Lemma keydownUP_same_liveness s : same_liveness s (exec keydownUP s).
Proof. apply cursorIndexChanged_same_liveness. Qed.

Lemma pointerOver_same_liveness h s : same_liveness s (exec (pointerOver h) s).
Proof.
  unfold exec, pointerOver. msimpl. destruct (buttons s !! h) as [b|]; [|done].
  destruct (ab_onPointerOver b); [apply cursorIndexChanged_same_liveness|done].
Qed.

Lemma same_liveness_keeps_live s s' :
  same_liveness s s' →
  (navigable_live s → navigable_live s') ∧ (permanent_live s → permanent_live s').
Proof.
  intros (Hl & Hp & Hc & Hlen & Hd). unfold navigable_live, permanent_live.
  rewrite Hl, Hp, Hc, Hlen. split; intros H; (eapply Forall_impl; [exact H|]); simpl;
    intros h; rewrite Hd; done.
Qed.

(** C7.  On every state where no navigable button is a child of the context
    container or destroyed, which are the states [show] leaves
    ([show_establishes_navigable_live]), [hide] returns and leaves
    [buttonsCount] at 0, the cursor at 0 and the navigable list empty. *)
Theorem C7_hide_resets (s : ActionsMenu) :
  navigable_live s →
  returns hide s = true ∧
  buttonsCount (exec hide s) = 0 ∧
  cursorIndex (exec hide s) = Num 0 ∧
  allCurrentButtons (exec hide s) = [].
Proof.
  intros Hlive. destruct (hide_run s Hlive) as (s' & E & Hn & Hc & Hl & _).
  unfold returns, exec. rewrite E. simpl. done.
Qed.

Lemma C7_hide_resets_witness :
  navigable_live shownMenu ∧
  returns hide shownMenu = true ∧
  buttonsCount (exec hide shownMenu) = 0 ∧
  cursorIndex (exec hide shownMenu) = Num 0 ∧
  allCurrentButtons (exec hide shownMenu) = [].
Proof.
  assert (navigable_live shownMenu) as H.
  { refine (bool_decide_unpack _ _). vm_compute. exact I. }
  split; [exact H|]. exact (C7_hide_resets shownMenu H).
Defined.

(** ** Activation *)

Section ActivationFacts.
Context {names : WeaponSelectorNames}.

(** Both closures run [hide] first.  When [hide] throws so does the
    closure; when it returns, the cancel closure throws on [hide()]'s
    [undefined] and the weapon closure logs the weapon. *)
Lemma onClick_run c s :
  onClick c s
  = match c, hide_completes s with
    | WeaponClick w, true =>
        (Normal (),
         set_scene (set_sc_console (sc_console (scene (exec hide s)) ++ [w])
                      (scene (exec hide s))) (exec hide s))
    | _, _ => (TypeError, exec hide s)
    end.
Proof.
  destruct (hide_any s) as (r & s' & E & Hr & _).
  unfold exec. destruct c as [|w]; unfold onClick, console_log; msimpl; rewrite E; simpl;
    subst r; by destruct (hide_completes s).
Qed.

(** What either closure leaves, however it ends. *)
Lemma onClick_fields c s :
  let s' := exec (onClick c) s in
  isVisible s' = false ∧ pointerups s' = pointerups s ∧ tile s' = tile s ∧
  sc_events (scene s') = sc_events (scene s) ∧ buttons s' = hidden_buttons s ∧
  (hide_completes s = true →
   buttonsCount s' = 0 ∧ cursorIndex s' = Num 0 ∧ allCurrentButtons s' = []).
Proof.
  destruct (hide_any s)
    as (r & s1 & E & _ & Ht & Hp & Hv & _ & _ & _ & _ & He & _ & _ & _ & _ & _ & Hb & Hn & Hc & Hl & _).
  intros s'. subst s'. unfold exec at 1 2 3 4 5 6 7 8. rewrite onClick_run.
  unfold exec. rewrite E. simpl.
  destruct c as [|w]; destruct (hide_completes s); simpl; repeat split; try done;
    intros [=].
Qed.

Lemma hidden_buttons_highlight s (h : handle) :
  (∀ b, buttons s !! h = Some b → ab_highlighted b = false) →
  ∀ b, hidden_buttons s !! h = Some b → ab_highlighted b = false.
Proof.
  intros Hs. unfold hidden_buttons.
  apply (unhover_pass_keeps (λ b, ab_highlighted b = false)); [done|].
  by apply (alter_each_keeps (λ b, ab_highlighted b = false)).
Qed.

Lemma emit_pointerup_fields h s :
  let s' := exec (emit_pointerup h) s in
  pointerups s' = pointerups s ++ [h] ∧
  buttons s' = match buttons s !! h with
               | Some _ => hidden_buttons s
               | None => buttons s
               end.
Proof.
  unfold emit_pointerup. msimpl. destruct (buttons s !! h) as [b|] eqn:Eb; [|done].
  pose proof (onClick_fields (ab_onClick b) (set_pointerups (pointerups s ++ [h]) s))
    as (_ & Hp & _ & _ & Hb & _).
  unfold exec in Hp, Hb. rewrite Hp, Hb. done.
Qed.

(** C6.  With the cursor at index [i] and [h] the button at that index,
    ENTER removes the highlight of [h] and emits 'pointerup' on [h]:
    exactly one 'pointerup' is emitted, on [h], and [h] is left without
    highlight. *)
Theorem C6_enter_activates_current (s : ActionsMenu) (i : Z) (h : handle) :
  cursorIndex s = Num i →
  0 ≤ i →
  allCurrentButtons s !! Z.to_nat i = Some h →
  let s' := exec keydownENTER s in
  keydownENTER s = (removeHighlight h;; emit_pointerup h) s ∧
  pointerups s' = pointerups s ++ [h] ∧
  (ab_highlighted <$> buttons s' !! h) = ((λ _, false) <$> buttons s !! h).
Proof.
  intros Hcur Hi Hh.
  assert (keydownENTER s = (removeHighlight h;; emit_pointerup h) s) as Heq.
  { unfold keydownENTER. msimpl. unfold js_index. rewrite Hcur, decide_True, Hh by done.
    reflexivity. }
  split; [exact Heq|]. unfold exec. rewrite Heq.
  unfold removeHighlight, update_button. msimpl.
  set (s1 := set_buttons (alter (set_highlighted false) h (buttons s)) s).
  assert (buttons s1 = alter (set_highlighted false) h (buttons s)) as Hb1 by done.
  pose proof (emit_pointerup_fields h s1) as (Hp & Hb). unfold exec in Hp, Hb.
  split; [by rewrite Hp|]. rewrite Hb, Hb1, list_lookup_alter_eq.
  destruct (buttons s !! h) as [b|] eqn:Eb; simpl.
  - assert (is_Some (hidden_buttons s1 !! h)) as [b' Hb'].
    { rewrite lookup_lt_is_Some, hidden_buttons_length, Hb1, length_alter.
      apply lookup_lt_is_Some. eauto. }
    rewrite Hb'. simpl. f_equal.
    apply (hidden_buttons_highlight s1 h) in Hb'; [done|].
    intros b0. rewrite Hb1, list_lookup_alter_eq, Eb. simpl. by intros [= <-].
  - by rewrite list_lookup_alter_eq, Eb.
Qed.

End ActivationFacts.

Lemma C6_enter_activates_current_witness :
  cursorIndex threeButtons = Num 2 ∧
  allCurrentButtons threeButtons !! Z.to_nat 2 = Some 2%nat ∧
  pointerups (exec (keydownENTER (names := demoNames)) threeButtons)
    = pointerups threeButtons ++ [2%nat] ∧
  (ab_highlighted <$> buttons (exec (keydownENTER (names := demoNames)) threeButtons) !! 2%nat)
    = ((λ _, false) <$> buttons threeButtons !! 2%nat).
Proof.
  assert (cursorIndex threeButtons = Num 2) as Hcur by (vm_compute; reflexivity).
  assert (allCurrentButtons threeButtons !! Z.to_nat 2 = Some 2%nat) as Hh
    by (vm_compute; reflexivity).
  split; [exact Hcur|]. split; [exact Hh|].
  destruct (C6_enter_activates_current (names := demoNames) threeButtons 2 2%nat Hcur
              ltac:(lia) Hh) as (_ & Hp & Hb).
  split; assumption.
Defined.



(** ** Showing without a context tile *)

(** C8.  When the context tile is absent (no options and no stored tile,
    or options without a tile), [createAdditionalButtons] of the weapon menu
    returns an empty container and changes nothing; with a permanent button
    in place, [show] returns, creates no button, and leaves the permanent
    buttons as the navigable list. *)
Theorem C8_show_without_context_tile (cursor : Tile)
    (options : option ActionsMenuShowOptions) (s : ActionsMenu) :
  contextTile options s = None →
  c_list (permanentButtons s) ≠ [] →
  let s' := exec (show (menu := WeaponSelectorMenu) cursor options) s in
  (∃ container,
      createAdditionalButtons (MenuClass := WeaponSelectorMenu) (set_tile None s)
      = (Normal container, set_tile None s) ∧ c_list container = []) ∧
  returns (show (menu := WeaponSelectorMenu) cursor options) s = true ∧
  tile s' = None ∧
  (c_list <$> additionalButtons s') = Some [] ∧
  allCurrentButtons s' = c_list (permanentButtons s) ∧
  buttonsCount s' = Z.of_nat (length (c_list (permanentButtons s))) ∧
  length (buttons s') = length (buttons s).
Proof.
  intros Hnone Hne s'. split.
  - simpl. rewrite createAdditionalButtons_eq. simpl. eauto.
  - destruct (show_run cursor options s) as (r & s1 & E & Hr & Hl & Hn & _ & Ht & _ & Ha & Hb & _).
    { by rewrite Hnone. }
    subst s'. unfold returns, exec. rewrite E. simpl.
    rewrite decide_False in Hr by done. subst r.
    rewrite Hnone in *. simpl in *. rewrite Nat.add_0_r in Hb. done.
Qed.

Lemma C8_show_without_context_tile_witness :
  let s' := exec (show (menu := WeaponSelectorMenu) plainTile None) newWeaponSelectorMenu in
  contextTile None newWeaponSelectorMenu = None ∧
  c_list (permanentButtons newWeaponSelectorMenu) = [0%nat] ∧
  returns (show (menu := WeaponSelectorMenu) plainTile None) newWeaponSelectorMenu = true ∧
  (c_list <$> additionalButtons s') = Some [] ∧
  allCurrentButtons s' = [0%nat].
Proof.
  intros s'.
  assert (contextTile None newWeaponSelectorMenu = None) as Hnone by reflexivity.
  assert (c_list (permanentButtons newWeaponSelectorMenu) = [0%nat]) as Hp by reflexivity.
  split; [exact Hnone|]. split; [exact Hp|].
  destruct (C8_show_without_context_tile plainTile None newWeaponSelectorMenu Hnone)
    as (_ & Hr & _ & Ha & Hl & _).
  { rewrite Hp. discriminate. }
  rewrite Hp in Hl. repeat split; assumption.
Defined.

(** ** Menus without a button *)

Section NavigationSafety.
Context {names : WeaponSelectorNames}.

(** C9.  From a state with the cursor at 0 (as the constructor and [hide]
    leave it) and a usable context tile: if the permanent container is
    empty, [show] throws (element 0 of the empty list is [undefined]), it
    leaves [buttonsCount] at 0, DOWN computes (cursorIndex + 1) % 0 = NaN,
    and DOWN, UP and ENTER all throw; if the container holds a button,
    [show] returns with [buttonsCount] >= 1 and a first button, and DOWN
    and UP return. *)
Theorem C9_navigation_needs_a_button (cursor : Tile)
    (options : option ActionsMenuShowOptions) (s : ActionsMenu) :
  unit_known (contextTile options s) →
  cursorIndex s = Num 0 →
  let s' := exec (show (menu := WeaponSelectorMenu) cursor options) s in
  if decide (c_list (permanentButtons s) = []) then
    returns (show (menu := WeaponSelectorMenu) cursor options) s = false ∧
    buttonsCount s' = 0 ∧
    js_index (allCurrentButtons s') (Num 0) = None ∧
    js_rem (js_add (cursorIndex s') 1) (buttonsCount s') = NaN ∧
    returns keydownDOWN s' = false ∧
    returns keydownUP s' = false ∧
    returns keydownENTER s' = false
  else
    returns (show (menu := WeaponSelectorMenu) cursor options) s = true ∧
    1 ≤ buttonsCount s' ∧
    is_Some (js_index (allCurrentButtons s') (Num 0)) ∧
    returns keydownDOWN s' = true ∧
    returns keydownUP s' = true.
Proof.
  intros Hunit Hcur s'.
  destruct (show_run cursor options s Hunit) as (r & s1 & E & Hr & Hl & Hn & Hc & _).
  assert (s' = s1) as -> by (subst s'; unfold exec; by rewrite E).
  assert (returns (show (menu := WeaponSelectorMenu) cursor options) s
          = match r with Normal _ => true | TypeError => false end) as ->
    by (unfold returns; by rewrite E).
  rewrite Hr. clear Hr E.
  destruct (decide (c_list (permanentButtons s) = [])) as [Hnil|Hne].
  - rewrite Hnil in *. simpl in Hn.
    unfold returns, keydownDOWN, keydownUP, keydownENTER, cursorIndexChanged. msimpl.
    rewrite Hc, Hcur, Hn, Hl. simpl. unfold js_index. simpl.
    rewrite Hc, Hcur, Hl. simpl. done.
  - assert (cursor_in_range s1 0) as Hrange.
    { unfold cursor_in_range. rewrite Hl, Hn, Hc, Hcur.
      destruct (c_list (permanentButtons s)); [done|]. simpl. split; [done|]. lia. }
    destruct (keydownDOWN_in_range s1 0 Hrange) as (sd & Hd & _).
    destruct (keydownUP_in_range s1 0 Hrange) as (su & Hu & _).
    unfold returns. rewrite Hd, Hu. simpl.
    destruct Hrange as (_ & Hi & Hlen).
    repeat split; try lia.
    apply js_index_in_range. lia.
Qed.
End NavigationSafety.

Lemma C9_navigation_needs_a_button_witness :
  let shown := exec (show (menu := WeaponSelectorMenu) plainTile None) in
  (unit_known (contextTile None buttonlessMenu) ∧ cursorIndex buttonlessMenu = Num 0 ∧
   c_list (permanentButtons buttonlessMenu) = [] ∧
   returns (show (menu := WeaponSelectorMenu) plainTile None) buttonlessMenu = false ∧
   returns keydownDOWN (shown buttonlessMenu) = false ∧
   returns keydownUP (shown buttonlessMenu) = false) ∧
  (unit_known (contextTile None newWeaponSelectorMenu) ∧
   cursorIndex newWeaponSelectorMenu = Num 0 ∧
   c_list (permanentButtons newWeaponSelectorMenu) = [0%nat] ∧
   returns (show (menu := WeaponSelectorMenu) plainTile None) newWeaponSelectorMenu = true ∧
   returns keydownDOWN (shown newWeaponSelectorMenu) = true ∧
   returns keydownUP (shown newWeaponSelectorMenu) = true).
Proof.
  intros shown. split.
  - pose proof (C9_navigation_needs_a_button (names := demoNames) plainTile None
                  buttonlessMenu I eq_refl) as H.
    cbv zeta in H. rewrite decide_True in H by reflexivity.
    destruct H as (Hs & _ & _ & _ & Hd & Hu & _).
    repeat split; assumption.
  - pose proof (C9_navigation_needs_a_button (names := demoNames) plainTile None
                  newWeaponSelectorMenu I eq_refl) as H.
    cbv zeta in H. rewrite decide_False in H by discriminate.
    destruct H as (Hs & _ & _ & Hd & Hu).
    repeat split; assumption.
Defined.

(** ** The stored context tile *)

Section StoredTile.
Context {names : WeaponSelectorNames}.

Lemma hide_tile s : tile (exec hide s) = tile s.
Proof.
  destruct (hide_any s) as (r & s' & E & _ & Ht & _). unfold exec. by rewrite E.
Qed.

(** C10.  [hide] leaves the [tile] field as it is; [show] without options
    leaves it as it is, and with options stores the options' tile.  So
    after [show] with a tile, [hide], and [show] without options, the field
    still holds the first tile: [createAdditionalButtons] built the buttons
    of that tile's unit again, and [sendAction] emits the prefixed action
    with that tile as payload. *)
Theorem C10_stale_tile_reused (cursor1 cursor2 : Tile) (o : ActionsMenuShowOptions)
    (action : string) (s : ActionsMenu) :
  let s1 := exec (show (menu := WeaponSelectorMenu) cursor1 (Some o)) s in
  let s2 := exec hide s1 in
  let s3 := exec (show (menu := WeaponSelectorMenu) cursor2 None) s2 in
  tile (exec hide s) = tile s ∧
  tile (exec (show (menu := WeaponSelectorMenu) cursor2 None) s) = tile s ∧
  tile s1 = opt_tile o ∧
  tile s2 = opt_tile o ∧
  tile s3 = opt_tile o ∧
  (unit_known (opt_tile o) →
   (length <$> (c_list <$> additionalButtons s3))
     = Some (length (contextWeapons (opt_tile o)))) ∧
  returns (sendAction action) s3 = true ∧
  sc_events (scene (exec (sendAction action) s3))
    = sc_events (scene s3)
      ++ [{| ev_name := weaponSelectorEvent +:+ action; ev_args := [opt_tile o] |}].
Proof.
  intros s1 s2 s3.
  assert (tile s1 = opt_tile o) as H1 by apply show_tile.
  assert (tile s2 = opt_tile o) as H2 by (subst s2; by rewrite hide_tile).
  assert (tile s3 = opt_tile o) as H3 by (subst s3; by rewrite show_tile).
  split; [apply hide_tile|]. split; [apply show_tile|].
  repeat (split; [assumption|]). split; [|split].
  - intros Hunit.
    destruct (show_navigable_list cursor2 None s2) as (_ & _ & Ha).
    { simpl. by rewrite H2. }
    fold s3 in Ha. rewrite Ha. simpl. by rewrite H2.
  - reflexivity.
  - unfold sendAction, events_emit, exec. msimpl. by rewrite H3.
Qed.
End StoredTile.

Lemma C10_stale_tile_reused_witness :
  let o := {| opt_tile := Some unitTile |} in
  let s1 := exec (show (menu := WeaponSelectorMenu) unitTile (Some o)) newWeaponSelectorMenu in
  let s2 := exec hide s1 in
  let s3 := exec (show (menu := WeaponSelectorMenu) plainTile None) s2 in
  unit_known (opt_tile o) ∧
  returns (show (menu := WeaponSelectorMenu) unitTile (Some o)) newWeaponSelectorMenu = true ∧
  returns hide s1 = true ∧
  returns (show (menu := WeaponSelectorMenu) plainTile None) s2 = true ∧
  tile s3 = Some unitTile ∧
  (length <$> (c_list <$> additionalButtons s3)) = Some 2%nat ∧
  sc_events (scene (exec (sendAction (names := demoNames) "cancel") s3))
    = sc_events (scene s3)
      ++ [{| ev_name := "weaponSelector:cancel"; ev_args := [Some unitTile] |}].
Proof.
  intros o s1 s2 s3.
  assert (unit_known (opt_tile o)) as Hunit by (simpl; eauto).
  split; [exact Hunit|].
  do 3 (split; [vm_compute; reflexivity|]).
  destruct (C10_stale_tile_reused (names := demoNames) unitTile plainTile o "cancel"
              newWeaponSelectorMenu) as (_ & _ & _ & _ & H3 & Ha & _ & He).
  split; [exact H3|]. split; [exact (Ha Hunit)|]. exact He.
Defined.

(** ** Further properties: the painted panel *)

Lemma paintLine_lookup w h columns x y i t a b :
  paintLine w h columns x y i t !! (a, b)
  = if decide (inBounds w h a b ∧ b = y ∧
               x + Z.of_nat i ≤ a < x + Z.of_nat i + Z.of_nat (length columns))
    then columns !! Z.to_nat (a - x - Z.of_nat i)
    else t !! (a, b).
Proof.
  revert i t. induction columns as [|v cols IH]; intros i t; simpl.
  - rewrite decide_False by lia. done.
  - rewrite IH. clear IH.
    destruct (decide (inBounds w h (x + Z.of_nat i) y)) as [Hin|Hin];
      (destruct (decide (b = y)) as [->|Hb];
       [destruct (decide (a = x + Z.of_nat i)) as [->|Ha]|]).
    all: rewrite ?lookup_insert_eq, ?lookup_insert_ne by (intros Heq; injection Heq; lia).
    all: repeat case_decide; unfold inBounds in *; try lia; try done.
    all: try (by replace (x + Z.of_nat i - x - Z.of_nat i) with 0 by lia).
    all: by replace (Z.to_nat (a - x - Z.of_nat i))
              with (S (Z.to_nat (a - x - Z.of_nat (S i)))) by lia.
Qed.

Lemma paintMiddle_lookup w h columns n x y index t a b :
  paintMiddle w h columns n x y index t !! (a, b)
  = if decide (inBounds w h a b ∧ (y + index + 1 ≤ b ≤ y + index + Z.of_nat n) ∧
               onRow columns x a)
    then columns !! Z.to_nat (a - x)
    else t !! (a, b).
Proof.
  unfold onRow. revert index t. induction n as [|n IH]; intros index t; cbn [paintMiddle].
  - rewrite decide_False by lia. done.
  - rewrite IH, paintLine_lookup.
    repeat case_decide; unfold inBounds in *; try lia; try done.
    by replace (a - x - Z.of_nat 0) with (a - x) by lia.
Qed.

Lemma paintContainer_lookup w h lines x y n t a b :
  paintContainer w h lines {| coord := {| coord_x := x; coord_y := y |}; itemsCount := n |} t
    !! (a, b)
  = paintedAt w h lines x y n t a b.
Proof.
  unfold paintContainer, paintedAt, onRow. simpl.
  rewrite paintLine_lookup, paintMiddle_lookup, paintLine_lookup. unfold onRow.
  repeat case_decide; unfold inBounds in *; try lia; try done.
  all: by replace (a - x - Z.of_nat 0) with (a - x) by lia.
Qed.

(** X1.  [createContainer] returns, and every position then holds what
    [paintedAt] says.  A position of the layer holds the top line at row y,
    a middle line at each of the rows y + 1 .. y + itemsCount, the bottom
    line at row y + max 0 (itemsCount - 2) + itemsCount, later lines over
    earlier ones, and otherwise what it held before; nothing is put at a
    position outside the layer. *)
Theorem createContainer_paints (lines : LinesTiles) (x y n : Z) (s : ActionsMenu) (a b : Z) :
  let param := {| coord := {| coord_x := x; coord_y := y |}; itemsCount := n |} in
  returns (createContainer lines param) s = true ∧
  layer_tiles (layer (exec (createContainer lines param) s)) !! (a, b)
  = paintedAt (tilemap_width (layer s)) (tilemap_height (layer s)) lines x y n
      (layer_tiles (layer s)) a b.
Proof.
  intros param. unfold returns, exec. rewrite createContainer_eq. simpl. split; [done|].
  apply paintContainer_lookup.
Qed.

(** X2.  From three items on, when the column and the rows of the panel lie
    on the layer, no line is painted over: the panel shows its top line,
    [n] middle lines and its bottom line, the latter [n - 2] rows below the
    last middle line. *)
Theorem createContainer_rows (lines : LinesTiles) (x y n : Z) (s : ActionsMenu) (c : nat) :
  3 ≤ n →
  0 ≤ x → x + Z.of_nat c < tilemap_width (layer s) →
  0 ≤ y → y + 2 * n - 2 < tilemap_height (layer s) →
  let t := layer_tiles (layer (exec (createContainer lines
             {| coord := {| coord_x := x; coord_y := y |}; itemsCount := n |}) s)) in
  ((c < length (top lines))%nat → t !! (x + Z.of_nat c, y) = top lines !! c) ∧
  ((c < length (middle lines))%nat →
     ∀ k, 1 ≤ k ≤ n → t !! (x + Z.of_nat c, y + k) = middle lines !! c) ∧
  ((c < length (bottom lines))%nat →
     t !! (x + Z.of_nat c, y + 2 * n - 2) = bottom lines !! c) ∧
  (∀ k, n < k < 2 * n - 2 →
     t !! (x + Z.of_nat c, y + k) = layer_tiles (layer s) !! (x + Z.of_nat c, y + k)).
Proof.
  intros Hn Hx Hxw Hy Hyh t. subst t.
  assert (∀ a b, layer_tiles (layer (exec (createContainer lines
             {| coord := {| coord_x := x; coord_y := y |}; itemsCount := n |}) s)) !! (a, b)
           = paintedAt (tilemap_width (layer s)) (tilemap_height (layer s)) lines x y n
               (layer_tiles (layer s)) a b) as Hp
    by (intros a b; unfold exec; rewrite createContainer_eq; apply paintContainer_lookup).
  assert (bottomRow y n = y + 2 * n - 2) as Hb by (unfold bottomRow; lia).
  assert (Z.to_nat (x + Z.of_nat c - x) = c) as Hc by lia.
  repeat split; intros; rewrite Hp; unfold paintedAt, onRow, inBounds; rewrite Hb, ?Hc.
  - rewrite decide_True, decide_False, decide_False, decide_True by lia. done.
  - rewrite decide_True, decide_False, decide_True by lia. done.
  - rewrite decide_True, decide_True by lia. done.
  - case_decide; [|done]. rewrite !decide_False by lia. done.
Qed.

Lemma createContainer_rows_witness :
  let t := layer_tiles (layer (exec (createContainer WeaponSelectorMenu_linesTiles
             {| coord := {| coord_x := 2; coord_y := 1 |}; itemsCount := 3 |})
             newWeaponSelectorMenu)) in
  3 ≤ 3 ∧
  0 ≤ 2 ∧ 2 + Z.of_nat 0 < tilemap_width (layer newWeaponSelectorMenu) ∧
  0 ≤ 1 ∧ 1 + 2 * 3 - 2 < tilemap_height (layer newWeaponSelectorMenu) ∧
  t !! (2 + Z.of_nat 0, 1) = Some 2674 ∧
  t !! (2 + Z.of_nat 0, 1 + 2 * 3 - 2) = Some 2734.
Proof.
  intros t.
  assert (2 + Z.of_nat 0 < tilemap_width (layer newWeaponSelectorMenu)) as Hxw
    by (vm_compute; reflexivity).
  assert (1 + 2 * 3 - 2 < tilemap_height (layer newWeaponSelectorMenu)) as Hyh
    by (vm_compute; reflexivity).
  destruct (createContainer_rows WeaponSelectorMenu_linesTiles 2 1 3 newWeaponSelectorMenu
              0%nat ltac:(lia) ltac:(lia) Hxw ltac:(lia) Hyh) as (Ht & _ & Hb & _).
  split; [lia|]. split; [lia|]. split; [exact Hxw|]. split; [lia|]. split; [exact Hyh|].
  split; [apply Ht|apply Hb]; simpl; lia.
Defined.
(** ** Further properties: what [show] and [hide] do to the scene, the
    layer and the buttons *)

Lemma show_None_effects cursor s :
  unit_known (tile s) →
  let xy := getMenuCoord WeaponSelectorMenu_linesTiles cursor s in
  let P := c_list (permanentButtons s) in
  ∃ r s', show (menu := WeaponSelectorMenu) cursor None s = (r, s') ∧
    isVisible s' = true ∧
    layer_tiles (layer s')
      = paintContainer (tilemap_width (layer s)) (tilemap_height (layer s))
          WeaponSelectorMenu_linesTiles
          {| coord := xy; itemsCount := Z.of_nat (length P) |} (layer_tiles (layer s)) ∧
    sc_events (scene s')
      = sc_events (scene s) ++ [{| ev_name := "unsubscribeMapEvents"; ev_args := [] |}] ∧
    sc_keyboard (scene s')
      = sc_keyboard (scene s) ++ (if decide (P = []) then [] else [KeyUP; KeyDOWN; KeyENTER]) ∧
    sc_timers (scene s') = sc_timers (scene s) ∧
    sc_console (scene s') = sc_console (scene s) ∧
    c_visible (permanentButtons s') = true ∧
    c_position (permanentButtons s') = buttonsPosition (layer s) xy ∧
    (c_position <$> additionalButtons s')
      = Some {| coord_x := coord_x (buttonsPosition (layer s) xy);
                coord_y := coord_y (buttonsPosition (layer s) xy)
                           + c_displayHeight (permanentButtons s) |} ∧
    buttons s' = shown_buttons (tile s) s.
Proof.
  intros Hunit xy P. subst xy P. unfold show. msimpl.
  unfold layer_setVisible, disableMapEvents, events_emit, enableEvents, keyboard_on,
    showButtons, highlightFirstButton, addHighlight, update_button, isVisible,
    buttonsPosition, shown_buttons. msimpl.
  rewrite createAdditionalButtons_eq. simpl.
  destruct (tile s) as [t|] eqn:Et; simpl in *.
  - destruct Hunit as [ws Hws]. rewrite Hws. simpl.
    rewrite createContainer_eq. simpl. rewrite addOverEventButtons_eq. simpl.
    unfold js_index. simpl.
    destruct (c_list (permanentButtons s)) as [|h l] eqn:El; simpl;
      (eexists _, _; split; [reflexivity|]); simpl; rewrite ?El, ?Et;
      repeat split; try done.
    all: try by rewrite <- !app_assoc.
    all: by rewrite app_nil_r.
  - rewrite createContainer_eq. simpl. rewrite addOverEventButtons_eq. simpl.
    unfold js_index. simpl.
    destruct (c_list (permanentButtons s)) as [|h l] eqn:El; simpl;
      (eexists _, _; split; [reflexivity|]); simpl; rewrite ?El, ?Et;
      repeat split; try done.
    all: try by rewrite <- !app_assoc.
    all: by rewrite app_nil_r.
Qed.

Lemma show_effects cursor options s :
  unit_known (contextTile options s) →
  let xy := getMenuCoord WeaponSelectorMenu_linesTiles cursor s in
  let P := c_list (permanentButtons s) in
  ∃ r s', show (menu := WeaponSelectorMenu) cursor options s = (r, s') ∧
    isVisible s' = true ∧
    layer_tiles (layer s')
      = paintContainer (tilemap_width (layer s)) (tilemap_height (layer s))
          WeaponSelectorMenu_linesTiles
          {| coord := xy; itemsCount := Z.of_nat (length P) |} (layer_tiles (layer s)) ∧
    sc_events (scene s')
      = sc_events (scene s) ++ [{| ev_name := "unsubscribeMapEvents"; ev_args := [] |}] ∧
    sc_keyboard (scene s')
      = sc_keyboard (scene s) ++ (if decide (P = []) then [] else [KeyUP; KeyDOWN; KeyENTER]) ∧
    sc_timers (scene s') = sc_timers (scene s) ∧
    sc_console (scene s') = sc_console (scene s) ∧
    c_visible (permanentButtons s') = true ∧
    c_position (permanentButtons s') = buttonsPosition (layer s) xy ∧
    (c_position <$> additionalButtons s')
      = Some {| coord_x := coord_x (buttonsPosition (layer s) xy);
                coord_y := coord_y (buttonsPosition (layer s) xy)
                           + c_displayHeight (permanentButtons s) |} ∧
    buttons s' = shown_buttons (contextTile options s) s.
Proof.
  destruct options as [o|]; cbn [contextTile]; [|apply show_None_effects].
  intros Hunit. exact (show_None_effects cursor (set_tile (opt_tile o) s) Hunit).
Qed.

(** X3.  [show] on the weapon menu emits one event on the bus,
    'unsubscribeMapEvents' without argument, sets no timer, and when there
    is a permanent button binds UP, DOWN and ENTER once more: a second
    [show] without a [hide] in between leaves every key bound twice, and one
    [hide] removes all the bindings. *)
Theorem show_binds_keys (cursor1 cursor2 : Tile) (options : option ActionsMenuShowOptions)
    (s : ActionsMenu) :
  unit_known (contextTile options s) →
  c_list (permanentButtons s) ≠ [] →
  let s1 := exec (show (menu := WeaponSelectorMenu) cursor1 options) s in
  let s2 := exec (show (menu := WeaponSelectorMenu) cursor2 None) s1 in
  emitted_since s s1 = [{| ev_name := "unsubscribeMapEvents"; ev_args := [] |}] ∧
  sc_timers (scene s1) = sc_timers (scene s) ∧
  sc_keyboard (scene s1) = sc_keyboard (scene s) ++ [KeyUP; KeyDOWN; KeyENTER] ∧
  sc_keyboard (scene s2)
    = sc_keyboard (scene s) ++ [KeyUP; KeyDOWN; KeyENTER] ++ [KeyUP; KeyDOWN; KeyENTER] ∧
  sc_keyboard (scene (exec hide s2)) = [].
Proof.
  intros Hunit Hne s1 s2.
  destruct (show_effects cursor1 options s Hunit)
    as (r1 & t1 & E1 & _ & _ & Hev & Hkb & Htm & _).
  destruct (show_run cursor1 options s Hunit) as (r1' & t1' & E1' & _ & _ & _ & _ & Ht & Hp & _).
  rewrite E1 in E1'. injection E1' as <- <-.
  assert (s1 = t1) as -> by (subst s1; unfold exec; by rewrite E1).
  rewrite decide_False in Hkb by done.
  destruct (show_effects cursor2 None t1) as (r2 & t2 & E2 & _ & _ & _ & Hkb2 & _).
  { simpl. by rewrite Ht. }
  assert (s2 = t2) as -> by (subst s2; unfold exec; by rewrite E2).
  rewrite Hp, decide_False in Hkb2 by done.
  destruct (hide_any t2) as (r3 & t3 & E3 & _ & _ & _ & _ & _ & _ & _ & Hkb3 & _).
  unfold emitted_since, exec. rewrite E3, Hev, Hkb2, Hkb, drop_app_length, <- app_assoc.
  done.
Qed.

Lemma show_binds_keys_witness :
  let s1 := exec (show (menu := WeaponSelectorMenu) unitTile
                    (Some {| opt_tile := Some unitTile |})) newWeaponSelectorMenu in
  let s2 := exec (show (menu := WeaponSelectorMenu) plainTile None) s1 in
  unit_known (Some unitTile) ∧
  c_list (permanentButtons newWeaponSelectorMenu) = [0%nat] ∧
  sc_keyboard (scene s1) = [KeyUP; KeyDOWN; KeyENTER] ∧
  sc_keyboard (scene s2) = [KeyUP; KeyDOWN; KeyENTER; KeyUP; KeyDOWN; KeyENTER] ∧
  sc_keyboard (scene (exec hide s2)) = [].
Proof.
  intros s1 s2.
  assert (unit_known (Some unitTile)) as Hunit by (simpl; eauto).
  split; [exact Hunit|]. split; [reflexivity|].
  destruct (show_binds_keys unitTile plainTile (Some {| opt_tile := Some unitTile |})
              newWeaponSelectorMenu Hunit ltac:(discriminate)) as (_ & _ & H1 & H2 & H3).
  split; [exact H1|]. split; [exact H2|exact H3].
Defined.

(** X4.  [show] paints the panel for as many items as there are permanent
    buttons, at the coordinates [getMenuCoord] gives for the [buttonsCount]
    stored before the call (the count of the previous [show], 0 after
    [hide]): a position of the layer then holds what [paintedAt] says, the
    positions of the panel that fall outside the layer being left out.
    [show] makes the layer and the permanent container visible, puts that
    container at the pixel position of the panel's tile plus the text
    offset (18, 10), and the context container [displayHeight] of the
    permanent one below. *)
Theorem show_places_panel (cursor : Tile) (options : option ActionsMenuShowOptions)
    (s : ActionsMenu) (a b : Z) :
  unit_known (contextTile options s) →
  let xy := getMenuCoord WeaponSelectorMenu_linesTiles cursor s in
  let s' := exec (show (menu := WeaponSelectorMenu) cursor options) s in
  let world := tileToWorldXY (layer s) (coord_x xy) (coord_y xy) in
  isVisible s' = true ∧
  layer_tiles (layer s') !! (a, b)
    = paintedAt (tilemap_width (layer s)) (tilemap_height (layer s))
        WeaponSelectorMenu_linesTiles (coord_x xy) (coord_y xy)
        (Z.of_nat (length (c_list (permanentButtons s)))) (layer_tiles (layer s)) a b ∧
  c_visible (permanentButtons s') = true ∧
  c_position (permanentButtons s')
    = {| coord_x := coord_x world + 18; coord_y := coord_y world + 10 |} ∧
  (c_position <$> additionalButtons s')
    = Some {| coord_x := coord_x world + 18;
              coord_y := coord_y world + 10 + c_displayHeight (permanentButtons s) |}.
Proof.
  intros Hunit xy s' world.
  destruct (show_effects cursor options s Hunit)
    as (r & t & E & Hv & Hti & _ & _ & _ & _ & Hcv & Hpos & Hadd & _).
  assert (s' = t) as -> by (subst s'; unfold exec; by rewrite E).
  rewrite Hv, Hti, Hcv, Hpos, Hadd. fold xy.
  destruct xy as [x y]. rewrite paintContainer_lookup. done.
Qed.

Lemma show_places_panel_witness :
  let s' := exec (show (menu := WeaponSelectorMenu) unitTile
                    (Some {| opt_tile := Some unitTile |})) newWeaponSelectorMenu in
  unit_known (Some unitTile) ∧
  getMenuCoord WeaponSelectorMenu_linesTiles unitTile newWeaponSelectorMenu
    = {| coord_x := 5; coord_y := 6 |} ∧
  c_position (permanentButtons s') = {| coord_x := 5 * 16 + 18; coord_y := 6 * 16 + 10 |} ∧
  layer_tiles (layer s') !! (5, 6) = Some 2674.
Proof.
  intros s'.
  assert (unit_known (Some unitTile)) as Hunit by (simpl; eauto).
  split; [exact Hunit|]. split; [reflexivity|].
  destruct (show_places_panel unitTile (Some {| opt_tile := Some unitTile |})
              newWeaponSelectorMenu 5 6 Hunit) as (_ & Ht & _ & Hp & _).
  subst s'. split; [exact Hp|]. rewrite Ht. vm_compute. reflexivity.
Defined.

(** X5.  When the context tile has no [tileUnit] property, [show] throws inside
    [createAdditionalButtons]: what it has done by then is store the tile
    and make the layer visible; no event is emitted, no key bound, no tile
    painted, and the navigable list and [buttonsCount] are those of before. *)
Theorem show_throws_without_unit_data (cursor : Tile)
    (options : option ActionsMenuShowOptions) (s : ActionsMenu) (t : Tile) :
  contextTile options s = Some t →
  tile_tileUnit t = None →
  show (menu := WeaponSelectorMenu) cursor options s
  = (TypeError, set_layer (set_layer_visible true (layer s)) (with_options options s)).
Proof.
  intros Ht Hu.
  assert (∀ s0, tile s0 = Some t →
            show (menu := WeaponSelectorMenu) cursor None s0
            = (TypeError, set_layer (set_layer_visible true (layer s0)) s0)) as Hnone.
  { intros s0 Ht0. unfold show. msimpl. unfold layer_setVisible. msimpl.
    rewrite createAdditionalButtons_eq. simpl. by rewrite Ht0, Hu. }
  destruct options as [o|]; simpl in *; [|by apply Hnone].
  exact (Hnone (set_tile (opt_tile o) s) Ht).
Qed.

Lemma show_throws_without_unit_data_witness :
  contextTile noUnitOptions newWeaponSelectorMenu = Some plainTile ∧
  tile_tileUnit plainTile = None ∧
  returns (show (menu := WeaponSelectorMenu) unitTile noUnitOptions) newWeaponSelectorMenu
    = false ∧
  tile (exec (show (menu := WeaponSelectorMenu) unitTile noUnitOptions) newWeaponSelectorMenu)
    = Some plainTile.
Proof.
  pose proof (show_throws_without_unit_data unitTile noUnitOptions newWeaponSelectorMenu
                plainTile eq_refl eq_refl) as H.
  split; [reflexivity|]. split; [reflexivity|].
  unfold returns, exec. rewrite H. split; reflexivity.
Defined.

(** X6.  However [hide] ends, it has emitted nothing on the bus, removed
    every tile of the layer and every key binding, however many there were,
    hidden the layer and the permanent container, and left the container
    where it was.  The 'subscribeMapEvents' event is left to a timer of
    100 ms, which is set only when [hide] returns; and [hide] returns when
    no navigable button is a child of the context container or destroyed. *)
Theorem hide_clears_panel_and_bindings (s : ActionsMenu) :
  let s' := exec hide s in
  isVisible s' = false ∧
  layer_tiles (layer s') = ∅ ∧
  sc_keyboard (scene s') = [] ∧
  emitted_since s s' = [] ∧
  c_visible (permanentButtons s') = false ∧
  c_position (permanentButtons s') = c_position (permanentButtons s) ∧
  sc_timers (scene s')
    = sc_timers (scene s)
      ++ (if returns hide s
          then [(100, {| ev_name := "subscribeMapEvents"; ev_args := [] |})] else []) ∧
  (navigable_live s → returns hide s = true).
Proof.
  destruct (hide_any s)
    as (r & t & E & Hr & _ & _ & Hv & Hti & _ & _ & Hkb & Hev & _ & _ & Hcv & Hpos & _ & _
        & _ & _ & _ & Htm).
  assert (returns hide s = hide_completes s) as Hret.
  { unfold returns. rewrite E. simpl. subst r. by destruct (hide_completes s). }
  intros s'. subst s'. unfold exec, emitted_since. rewrite E. simpl.
  rewrite Hev, drop_all, Hret. repeat split; try done.
  intros Hlive. by destruct (navigable_live_completes s Hlive).
Qed.

Lemma hide_clears_panel_and_bindings_witness :
  navigable_live shownMenu ∧
  returns hide shownMenu = true ∧
  layer_tiles (layer (exec hide shownMenu)) = ∅ ∧
  sc_keyboard (scene (exec hide shownMenu)) = [] ∧
  sc_timers (scene (exec hide shownMenu))
    = sc_timers (scene shownMenu)
      ++ [(100, {| ev_name := "subscribeMapEvents"; ev_args := [] |})].
Proof.
  assert (navigable_live shownMenu) as Hlive.
  { refine (bool_decide_unpack _ _). vm_compute. exact I. }
  destruct (hide_clears_panel_and_bindings shownMenu)
    as (_ & Hti & Hkb & _ & _ & _ & Htm & Hret).
  rewrite (Hret Hlive) in Htm.
  split; [exact Hlive|]. split; [exact (Hret Hlive)|]. split; [exact Hti|].
  split; [exact Hkb|exact Htm].
Defined.
(** ** Further properties: cursor, highlight and hover *)

Lemma cursorIndexChanged_effects s i j hi hj :
  cursorIndex s = Num i → 0 ≤ i → 0 ≤ j →
  allCurrentButtons s !! Z.to_nat i = Some hi →
  allCurrentButtons s !! Z.to_nat j = Some hj →
  ∃ s', cursorIndexChanged (Num j) s = (Normal (), s') ∧
    cursorIndex s' = Num j ∧
    allCurrentButtons s' = allCurrentButtons s ∧
    buttonsCount s' = buttonsCount s ∧
    buttons s' = (if decide (i = j) then buttons s
                  else alter (set_highlighted true) hj
                         (alter (set_highlighted false) hi (buttons s))).
Proof.
  intros Hcur Hi Hj Hhi Hhj. unfold cursorIndexChanged. msimpl. rewrite Hcur. simpl.
  case_bool_decide as Hij.
  - subst j. rewrite decide_True by done. exists s. done.
  - rewrite decide_False by done. rewrite Hcur. unfold js_index.
    rewrite decide_True, Hhi by done.
    unfold removeHighlight, addHighlight, update_button. msimpl.
    rewrite decide_True, Hhj by done. eexists. split; [reflexivity|]. done.
Qed.

Lemma highlight_moves s i j :
  cursor_in_range s i →
  0 ≤ j < buttonsCount s →
  highlight_at s i →
  ∃ s', cursorIndexChanged (Num j) s = (Normal (), s') ∧
    cursor_in_range s' j ∧ highlight_at s' j ∧ buttonsCount s' = buttonsCount s.
Proof.
  intros (Hcur & Hi & Hlen) Hj (Hnd & Hhl).
  destruct (lookup_lt_is_Some_2 (allCurrentButtons s) (Z.to_nat i)) as [hi Hhi]; [lia|].
  destruct (lookup_lt_is_Some_2 (allCurrentButtons s) (Z.to_nat j)) as [hj Hhj]; [lia|].
  destruct (cursorIndexChanged_effects s i j hi hj) as (s' & E & Hc & Hl & Hn & Hb);
    [done|lia|lia|done|done|].
  exists s'. split; [done|]. split; [|split; [|done]].
  { unfold cursor_in_range. rewrite Hl, Hn. done. }
  unfold highlight_at. rewrite Hl, Hb. split; [done|].
  intros k h Hk. destruct (Hhl k h Hk) as (b & Hbh & Hbl).
  destruct (decide (i = j)) as [->|Hij]; [eauto|].
  destruct (decide (Z.of_nat k = j)) as [Hkj|Hkj].
  - assert (h = hj) as -> by (rewrite <- Hkj, Nat2Z.id in Hhj; congruence).
    rewrite list_lookup_alter_eq.
    assert (hi ≠ hj) as Hne.
    { intros ->. apply Hij.
      pose proof (NoDup_lookup _ _ _ _ Hnd Hhi Hhj). lia. }
    rewrite list_lookup_alter_ne, Hbh by done. simpl. eexists. split; [done|].
    simpl. by rewrite bool_decide_eq_true_2.
  - assert (h ≠ hj) as Hne.
    { intros ->. apply Hkj. pose proof (NoDup_lookup _ _ _ _ Hnd Hk Hhj). lia. }
    rewrite list_lookup_alter_ne by done.
    destruct (decide (Z.of_nat k = i)) as [Hki|Hki].
    + assert (h = hi) as -> by (rewrite <- Hki, Nat2Z.id in Hhi; congruence).
      rewrite list_lookup_alter_eq, Hbh. simpl. eexists. split; [done|].
      simpl. by rewrite bool_decide_eq_false_2.
    + assert (h ≠ hi) as Hne'.
      { intros ->. apply Hki. pose proof (NoDup_lookup _ _ _ _ Hnd Hk Hhi). lia. }
      rewrite list_lookup_alter_ne by done. exists b. split; [done|].
      rewrite Hbl. by rewrite !bool_decide_eq_false_2.
Qed.

(** X7.  While the cursor is in range and exactly the button under it is
    highlighted, DOWN and UP keep it so: the highlight moves with the
    cursor, and no second button is ever highlighted. *)
Theorem keys_move_the_highlight (s : ActionsMenu) (i : Z) :
  cursor_in_range s i →
  highlight_at s i →
  let n := buttonsCount s in
  returns keydownDOWN s = true ∧
  cursor_in_range (exec keydownDOWN s) ((i + 1) mod n) ∧
  highlight_at (exec keydownDOWN s) ((i + 1) mod n) ∧
  returns keydownUP s = true ∧
  cursor_in_range (exec keydownUP s) ((i - 1 + n) mod n) ∧
  highlight_at (exec keydownUP s) ((i - 1 + n) mod n).
Proof.
  intros Hr Hh n. pose proof Hr as (Hcur & Hi & Hlen). fold n in Hi.
  assert (0 ≤ (i + 1) mod n < n) as Hd by (apply Z.mod_pos_bound; lia).
  assert (0 ≤ (i - 1 + n) mod n < n) as Hu by (apply Z.mod_pos_bound; lia).
  destruct (highlight_moves s i ((i + 1) mod n) Hr Hd Hh) as (sd & Ed & Hrd & Hhd & _).
  destruct (highlight_moves s i ((i - 1 + n) mod n) Hr Hu Hh) as (su & Eu & Hru & Hhu & _).
  assert (keydownDOWN s = (Normal (), sd)) as Ed'.
  { unfold keydownDOWN. msimpl. rewrite Hcur. simpl. fold n.
    rewrite decide_False, Z.rem_mod_nonneg by lia. exact Ed. }
  assert (keydownUP s = (Normal (), su)) as Eu'.
  { unfold keydownUP. msimpl. rewrite Hcur. simpl. fold n.
    assert ((if bool_decide (i - 1 < 0) then Num (n - 1) else Num (i - 1))
            = Num ((i - 1 + n) mod n)) as ->; [|exact Eu].
    case_bool_decide.
    - assert (i = 0) as -> by lia. f_equal. rewrite Z.mod_small; lia.
    - f_equal. replace (i - 1 + n) with (i - 1 + 1 * n) by lia.
      rewrite Z.mod_add, Z.mod_small; lia. }
  unfold returns, exec. rewrite Ed', Eu'. done.
Qed.

Lemma keys_move_the_highlight_witness :
  cursor_in_range threeButtonsAtTop 0 ∧
  highlight_at threeButtonsAtTop 0 ∧
  highlight_at (exec keydownDOWN threeButtonsAtTop) ((0 + 1) mod 3) ∧
  highlight_at (exec keydownUP threeButtonsAtTop) ((0 - 1 + 3) mod 3).
Proof.
  assert (cursor_in_range threeButtonsAtTop 0) as Hr.
  { unfold cursor_in_range. vm_compute. intuition congruence. }
  assert (highlight_at threeButtonsAtTop 0) as Hh.
  { split.
    - refine (bool_decide_unpack _ _). vm_compute. exact I.
    - intros [|[|[|k]]] h; vm_compute; intros [= <-]; eexists; (split; [reflexivity|]);
        reflexivity. }
  split; [exact Hr|]. split; [exact Hh|].
  destruct (keys_move_the_highlight threeButtonsAtTop 0 Hr Hh) as (_ & _ & Hd & _ & _ & Hu).
  split; [exact Hd|exact Hu].
Defined.

Lemma presses_DOWN s i k :
  cursor_in_range s i →
  cursor_in_range (presses keydownDOWN k s) ((i + Z.of_nat k) mod buttonsCount s) ∧
  buttonsCount (presses keydownDOWN k s) = buttonsCount s.
Proof.
  revert s i. induction k as [|k IH]; intros s i Hr.
  - simpl. rewrite Z.add_0_r, Z.mod_small by apply Hr. done.
  - cbn [presses]. destruct (keydownDOWN_in_range s i Hr) as (s' & E & Hr' & Hn).
    unfold exec. rewrite E. simpl.
    destruct (IH s' _ Hr') as (Hr'' & Hn'). rewrite Hn in Hr'', Hn'.
    assert (0 < buttonsCount s) by (destruct Hr as (_ & ? & _); lia).
    split; [|done].
    replace ((i + Z.of_nat (S k)) mod buttonsCount s)
      with (((i + 1) mod buttonsCount s + Z.of_nat k) mod buttonsCount s); [done|].
    rewrite Z.add_mod_idemp_l by lia. f_equal. lia.
Qed.

Lemma presses_UP s i k :
  cursor_in_range s i →
  cursor_in_range (presses keydownUP k s) ((i - Z.of_nat k) mod buttonsCount s) ∧
  buttonsCount (presses keydownUP k s) = buttonsCount s.
Proof.
  revert s i. induction k as [|k IH]; intros s i Hr.
  - simpl. rewrite Z.sub_0_r, Z.mod_small by apply Hr. done.
  - cbn [presses]. destruct (keydownUP_in_range s i Hr) as (s' & E & Hr' & Hn).
    unfold exec. rewrite E. simpl.
    destruct (IH s' _ Hr') as (Hr'' & Hn'). rewrite Hn in Hr'', Hn'.
    assert (0 < buttonsCount s) by (destruct Hr as (_ & ? & _); lia).
    split; [|done].
    replace ((i - Z.of_nat (S k)) mod buttonsCount s)
      with (((i - 1 + buttonsCount s) mod buttonsCount s - Z.of_nat k) mod buttonsCount s);
      [done|].
    rewrite Zminus_mod_idemp_l. 
    replace (i - 1 + buttonsCount s - Z.of_nat k)
      with (i - Z.of_nat (S k) + 1 * buttonsCount s) by lia.
    by rewrite Z.mod_add by lia.
Qed.

(** X8.  [k] presses of DOWN move the cursor from [i] to (i + k) mod
    buttonsCount, [k] presses of UP to (i - k) mod buttonsCount; pressing
    either key [buttonsCount] times leads back to [i]. *)
Theorem presses_cycle (s : ActionsMenu) (i : Z) (k : nat) :
  cursor_in_range s i →
  let n := buttonsCount s in
  cursorIndex (presses keydownDOWN k s) = Num ((i + Z.of_nat k) mod n) ∧
  cursorIndex (presses keydownUP k s) = Num ((i - Z.of_nat k) mod n) ∧
  cursorIndex (presses keydownDOWN (Z.to_nat n) s) = Num i ∧
  cursorIndex (presses keydownUP (Z.to_nat n) s) = Num i.
Proof.
  intros Hr n. pose proof Hr as (_ & Hi & _). fold n in Hi.
  destruct (presses_DOWN s i k Hr) as ((Hd & _) & _).
  destruct (presses_UP s i k Hr) as ((Hu & _) & _).
  destruct (presses_DOWN s i (Z.to_nat n) Hr) as ((Hdn & _) & _).
  destruct (presses_UP s i (Z.to_nat n) Hr) as ((Hun & _) & _).
  fold n in Hd, Hu, Hdn, Hun. rewrite Z2Nat.id in Hdn, Hun by lia.
  replace (i + n) with (i + 1 * n) in Hdn by lia.
  replace (i - n) with (i + (-1) * n) in Hun by lia.
  rewrite Z.mod_add, Z.mod_small in Hdn, Hun by lia. done.
Qed.

Lemma presses_cycle_witness :
  cursor_in_range threeButtons 2 ∧
  cursorIndex (presses keydownDOWN 2 threeButtons) = Num ((2 + Z.of_nat 2) mod 3) ∧
  cursorIndex (presses keydownDOWN (Z.to_nat 3) threeButtons) = Num 2 ∧
  cursorIndex (presses keydownUP (Z.to_nat 3) threeButtons) = Num 2.
Proof.
  assert (cursor_in_range threeButtons 2) as Hr.
  { unfold cursor_in_range. vm_compute. intuition congruence. }
  split; [exact Hr|].
  destruct (presses_cycle threeButtons 2 2 Hr) as (Hd & _ & Hdn & Hun).
  split; [exact Hd|]. split; [exact Hdn|exact Hun].
Defined.

(** A property that every [f i] brings about, and keeps, holds of each
    button of [l] after [alter_each]. *)
Lemma alter_each_establishes (P : ActionButton → Prop) f l k bs (h : handle) :
  (∀ i b, P (f i b)) →
  h ∈ l →
  ∀ b, alter_each f l k bs !! h = Some b → P b.
Proof.
  intros Hf. revert k bs. induction l as [|h' l IH]; intros k bs Hh b.
  { by apply elem_of_nil in Hh. }
  rewrite alter_each_cons. destruct (decide (h = h')) as [->|Hne].
  - apply (alter_each_keeps P); [intros; apply Hf|].
    intros b0. rewrite list_lookup_alter_eq. intros Hb0.
    apply fmap_Some in Hb0 as (b1 & _ & ->). apply Hf.
  - apply IH. apply elem_of_cons in Hh as [?|?]; done.
Qed.

Lemma alter_each_hover l k bs i (h : handle) :
  NoDup l → l !! i = Some h →
  alter_each (λ i, set_onPointerOver (Some i)) l k bs !! h
  = set_onPointerOver (Some (k + i)%nat) <$> bs !! h.
Proof.
  revert k bs i. induction l as [|h' l IH]; intros k bs i Hnd Hi; [done|].
  apply NoDup_cons in Hnd as [Hnotin Hnd]. rewrite alter_each_cons. destruct i as [|i]; simpl in Hi.
  - injection Hi as ->. rewrite alter_each_not_in by done.
    by rewrite list_lookup_alter_eq, Nat.add_0_r.
  - assert (h' ≠ h) as Hne by (intros ->; apply Hnotin; by eapply list_elem_of_lookup_2).
    rewrite (IH (S k) _ i Hnd Hi), list_lookup_alter_ne by done.
    by replace (S k + i)%nat with (k + S i)%nat by lia.
Qed.

(** X9.  After [show], the navigable button at index [i] carries the hover
    handler for [i]: when the pointer enters it the cursor moves to [i]. *)
Theorem hover_after_show (cursor : Tile) (options : option ActionsMenuShowOptions)
    (s : ActionsMenu) (i : nat) (h : handle) :
  unit_known (contextTile options s) →
  cursorIndex s = Num 0 →
  NoDup (c_list (permanentButtons s)) →
  c_list (permanentButtons s) !! i = Some h →
  is_Some (buttons s !! h) →
  let s' := exec (show (menu := WeaponSelectorMenu) cursor options) s in
  allCurrentButtons s' !! i = Some h ∧
  (ab_onPointerOver <$> buttons s' !! h) = Some (Some i) ∧
  returns (pointerOver h) s' = true ∧
  cursorIndex (exec (pointerOver h) s') = Num (Z.of_nat i).
Proof.
  intros Hunit Hcur Hnd Hi [b Hb] s'.
  assert (c_list (permanentButtons s) ≠ []) as Hne by (intros E; by rewrite E in Hi).
  pose proof (show_cursor_in_range cursor options s Hunit Hcur Hne) as Hr. fold s' in Hr.
  destruct (show_effects cursor options s Hunit) as (r & t & E & _ & _ & _ & _ & _ & _ & _ & _ & _ & Hbs).
  destruct (show_run cursor options s Hunit) as (r' & t' & E' & _ & Hl & _).
  rewrite E in E'. injection E' as <- <-.
  assert (s' = t) as Hs' by (subst s'; unfold exec; by rewrite E).
  rewrite Hs' in *. clear Hs' s'.
  assert (∃ b', buttons t !! h = Some b' ∧ ab_onPointerOver b' = Some i) as (b' & Hb' & Hov).
  { rewrite Hbs. unfold shown_buttons.
    assert (alter_each (λ i, set_onPointerOver (Some i)) (c_list (permanentButtons s)) 0
              (buttons s ++ weaponButtonsFrom (contextWeapons (contextTile options s)) 0) !! h
            = Some (set_onPointerOver (Some i) b)) as Hh.
    { rewrite (alter_each_hover _ 0 _ i h Hnd Hi).
      rewrite lookup_app_l by (by apply lookup_lt_Some in Hb). by rewrite Hb. }
    destruct (c_list (permanentButtons s)) as [|h0 l]; [done|].
    destruct (decide (h0 = h)) as [->|Hne0].
    - rewrite list_lookup_alter_eq, Hh. simpl. eauto.
    - rewrite list_lookup_alter_ne, Hh by done. eauto. }
  split; [by rewrite Hl|]. split; [rewrite Hb'; simpl; by rewrite Hov|].
  destruct (pointerOver_in_range t 0 h b' i Hr Hb' Hov) as (u & Eu & Hu & _).
  { rewrite Hl. by apply lookup_lt_Some in Hi. }
  unfold returns, exec. rewrite Eu. done.
Qed.

Lemma hover_after_show_witness :
  let s' := exec (show (menu := WeaponSelectorMenu) plainTile None) newWeaponSelectorMenu in
  unit_known (contextTile None newWeaponSelectorMenu) ∧
  cursorIndex newWeaponSelectorMenu = Num 0 ∧
  c_list (permanentButtons newWeaponSelectorMenu) !! 0%nat = Some 0%nat ∧
  (ab_onPointerOver <$> buttons s' !! 0%nat) = Some (Some 0%nat) ∧
  cursorIndex (exec (pointerOver 0) s') = Num (Z.of_nat 0).
Proof.
  intros s'. split; [exact I|]. split; [reflexivity|]. split; [reflexivity|].
  destruct (hover_after_show plainTile None newWeaponSelectorMenu 0 0%nat I eq_refl)
    as (_ & Ho & _ & Hc).
  - refine (bool_decide_unpack _ _). vm_compute. exact I.
  - reflexivity.
  - vm_compute. eauto.
  - split; [exact Ho|exact Hc].
Defined.

Lemma unhover_pass_not_in l bs (h : handle) :
  h ∉ l → (unhover_pass l bs).2 !! h = bs !! h.
Proof.
  revert bs. induction l as [|h' l IH]; intros bs Hh; simpl; [done|].
  apply not_elem_of_cons in Hh as [Hne Hh].
  destruct (destroyed_at bs h'); [done|]. rewrite IH by done. by apply list_lookup_alter_ne.
Qed.

Lemma hidden_buttons_lookup s (h : handle) b :
  buttons s !! h = Some b →
  ∃ b', hidden_buttons s !! h = Some b' ∧
    same_options b b' ∧
    (h ∈ evens (contextChildren s) → ab_destroyed b' = true) ∧
    (h ∉ allCurrentButtons s → h ∉ evens (contextChildren s) → b' = b) ∧
    (navigable_live s → h ∈ allCurrentButtons s →
       ab_highlighted b' = false ∧ ab_onPointerOver b' = None).
Proof.
  intros Hb.
  destruct (proj2 (lookup_lt_is_Some (hidden_buttons s) h)) as [b' Hb'].
  { rewrite hidden_buttons_length. apply lookup_lt_is_Some. eauto. }
  exists b'. split; [done|]. unfold hidden_buttons in Hb'.
  assert (∀ P : ActionButton → Prop,
            (∀ x, P x → P (set_onPointerOver None (set_highlighted false x))) →
            (∀ x, P x → P (set_destroyed true x)) →
            P b → P b') as Hkeep.
  { intros P H1 H2 HP.
    eapply (unhover_pass_keeps P); [exact H1| |exact Hb'].
    apply (alter_each_keeps P); [intros _; exact H2|].
    intros b0 Hb0. rewrite Hb in Hb0. by injection Hb0 as <-. }
  repeat split.
  - by apply (Hkeep (λ x, ab_text x = ab_text b)).
  - by apply (Hkeep (λ x, ab_width x = ab_width b)).
  - by apply (Hkeep (λ x, ab_coord x = ab_coord b)).
  - by apply (Hkeep (λ x, ab_onClick x = ab_onClick b)).
  - intros Hin. eapply (unhover_pass_keeps (λ x, ab_destroyed x = true)); [done| |exact Hb'].
    intros b0 Hb0.
    eapply (alter_each_establishes (λ x, ab_destroyed x = true)); [|exact Hin|exact Hb0]. done.
  - intros Hn1 Hn2. rewrite unhover_pass_not_in, alter_each_not_in in Hb' by done. congruence.
  - destruct (navigable_live_completes s H) as [_ Heq]. unfold hidden_buttons in Heq.
    rewrite Heq in Hb'.
    eapply (alter_each_establishes (λ x, ab_highlighted x = false)); [|exact H0|exact Hb']. done.
  - destruct (navigable_live_completes s H) as [_ Heq]. unfold hidden_buttons in Heq.
    rewrite Heq in Hb'.
    eapply (alter_each_establishes (λ x, ab_onPointerOver x = None)); [|exact H0|exact Hb']. done.
Qed.

(** X10.  However [hide] ends, it changes no button's options (text, width,
    position, click closure) and drops none from the store.  Of the
    children of the context container it destroys those at the even
    positions only (the first, the third, ...): each [destroy] takes the
    child out of the list the loop runs over, so the child after it is
    skipped and stays in the container.  A button that is not navigable is
    otherwise left exactly as it was.  When no navigable button is a child
    of the context container or destroyed, every navigable button is left
    without highlight and without hover handler. *)
Theorem hide_resets_buttons (s : ActionsMenu) (h : handle) (b : ActionButton) :
  buttons s !! h = Some b →
  contextChildren (exec hide s) = odds (contextChildren s) ∧
  ∃ b', buttons (exec hide s) !! h = Some b' ∧
    same_options b b' ∧
    (h ∈ evens (contextChildren s) → ab_destroyed b' = true) ∧
    (h ∉ allCurrentButtons s → h ∉ evens (contextChildren s) → b' = b) ∧
    (navigable_live s → h ∈ allCurrentButtons s →
       ab_highlighted b' = false ∧ ab_onPointerOver b' = None).
Proof.
  intros Hb.
  destruct (hide_any s)
    as (r & t & E & _ & _ & _ & _ & _ & _ & _ & _ & _ & _ & _ & _ & _ & Hc & Hbs & _).
  unfold exec. rewrite E. simpl. rewrite Hc, Hbs. split; [done|].
  by apply hidden_buttons_lookup.
Qed.

Lemma hide_resets_buttons_witness :
  navigable_live shownMenu ∧
  contextChildren shownMenu = [1%nat; 2%nat] ∧
  contextChildren (exec hide shownMenu) = [2%nat] ∧
  (ab_highlighted <$> buttons shownMenu !! 0%nat) = Some true ∧
  (ab_highlighted <$> buttons (exec hide shownMenu) !! 0%nat) = Some false ∧
  (ab_onPointerOver <$> buttons (exec hide shownMenu) !! 0%nat) = Some None ∧
  (ab_destroyed <$> buttons (exec hide shownMenu) !! 1%nat) = Some true ∧
  buttons (exec hide shownMenu) !! 2%nat = buttons shownMenu !! 2%nat.
Proof.
  assert (navigable_live shownMenu) as Hlive.
  { refine (bool_decide_unpack _ _). vm_compute. exact I. }
  assert (0%nat ∈ allCurrentButtons shownMenu) as Hin0.
  { refine (bool_decide_unpack _ _). vm_compute. exact I. }
  assert (1%nat ∈ evens (contextChildren shownMenu)) as Hin1.
  { refine (bool_decide_unpack _ _). vm_compute. exact I. }
  assert (2%nat ∉ allCurrentButtons shownMenu) as Hout2.
  { refine (bool_decide_unpack _ _). vm_compute. exact I. }
  assert (2%nat ∉ evens (contextChildren shownMenu)) as Hout2'.
  { refine (bool_decide_unpack _ _). vm_compute. exact I. }
  assert (is_Some (buttons shownMenu !! 0%nat)) as [a0 Ha0] by (vm_compute; eauto).
  assert (is_Some (buttons shownMenu !! 1%nat)) as [a1 Ha1] by (vm_compute; eauto).
  assert (is_Some (buttons shownMenu !! 2%nat)) as [a2 Ha2] by (vm_compute; eauto).
  destruct (hide_resets_buttons shownMenu 0%nat a0 Ha0) as (Hodd & b0 & H0 & _ & _ & _ & Hn).
  destruct (hide_resets_buttons shownMenu 1%nat a1 Ha1) as (_ & b1 & H1 & _ & Hd & _).
  destruct (hide_resets_buttons shownMenu 2%nat a2 Ha2) as (_ & b2 & H2 & _ & _ & Hsame & _).
  destruct (Hn Hlive Hin0) as [Hh Ho].
  split; [exact Hlive|]. split; [vm_compute; reflexivity|].
  split; [rewrite Hodd; vm_compute; reflexivity|]. split; [vm_compute; reflexivity|].
  split; [rewrite H0; exact (f_equal Some Hh)|].
  split; [rewrite H0; exact (f_equal Some Ho)|].
  split; [rewrite H1; exact (f_equal Some (Hd Hin1))|].
  rewrite H2, Ha2. exact (f_equal Some (Hsame Hout2 Hout2')).
Defined.

Lemma destroyed_at_destroy_each l k bs (h : handle) :
  (h < length bs)%nat →
  destroyed_at (alter_each (λ _, set_destroyed true) l k bs) h
  = bool_decide (h ∈ l) || destroyed_at bs h.
Proof.
  revert k bs. induction l as [|h' l IH]; intros k bs Hh; [done|].
  rewrite alter_each_cons, IH by (by rewrite length_alter).
  destruct (lookup_lt_is_Some_2 bs h Hh) as [b Hb].
  unfold destroyed_at. destruct (decide (h' = h)) as [->|Hne].
  - rewrite list_lookup_alter_eq, Hb. simpl.
    rewrite (bool_decide_eq_true_2 (h ∈ h :: l)) by apply list_elem_of_here.
    apply orb_true_r.
  - rewrite list_lookup_alter_ne, Hb by done. f_equal.
    apply bool_decide_ext. rewrite elem_of_cons. split; [by right|]. by intros [?|?].
Qed.

Lemma evens_seq (n a i : nat) :
  (i < n)%nat → (a + i)%nat ∈ evens (seq a n) ↔ Nat.even i = true.
Proof.
  enough (∀ n a i,
            ((i < n)%nat → (a + i)%nat ∈ evens (seq a n) ↔ Nat.even i = true) ∧
            ((i < S n)%nat → (a + i)%nat ∈ evens (seq a (S n)) ↔ Nat.even i = true)) as H
    by apply H.
  clear. intros n. induction n as [|n IH]; intros a i.
  - split; [lia|]. intros Hi. assert (i = 0%nat) as -> by lia. simpl.
    rewrite Nat.add_0_r, list_elem_of_singleton. done.
  - destruct (IH a i) as [_ IH2]. split; [exact IH2|]. intros Hi.
    change (evens (seq a (S (S n)))) with (a :: evens (seq (S (S a)) n)).
    rewrite elem_of_cons.
    destruct i as [|[|i]].
    + simpl. split; [done|]. intros _. left. lia.
    + simpl. split; [|done]. intros [?|Hin]; [lia|].
      apply evens_subseteq, elem_of_seq in Hin. lia.
    + destruct (IH (S (S a)) i) as [IH1 _].
      replace (a + S (S i))%nat with (S (S a) + i)%nat by lia.
      change (Nat.even (S (S i))) with (Nat.even i).
      rewrite <- IH1 by lia. split; [|by right]. intros [?|?]; [lia|done].
Qed.

Lemma shown_buttons_destroyed t s (h : handle) :
  destroyed_at (shown_buttons t s) h
  = destroyed_at (buttons s ++ weaponButtonsFrom (contextWeapons t) 0) h.
Proof.
  unfold shown_buttons. destruct (c_list (permanentButtons s)) as [|h0 l].
  - by rewrite destroyed_at_alter_each.
  - by rewrite destroyed_at_alter, destroyed_at_alter_each.
Qed.

(** X11.  One [show] followed by [hide] on the weapon menu: [show] adds one
    button per weapon of the context tile's unit to the store, and [hide]
    destroys every second one of them, beginning with the first: the button
    of the weapon at index [i] is left destroyed when [i] is even and live
    when [i] is odd, and the buttons at the odd indexes stay in the context
    container.  The store keeps them all, so it grows by that many buttons
    with every such cycle. *)
Theorem show_hide_destroys_every_second_button (cursor : Tile)
    (options : option ActionsMenuShowOptions) (s : ActionsMenu) (i : nat) :
  unit_known (contextTile options s) →
  (i < length (contextWeapons (contextTile options s)))%nat →
  let s2 := exec hide (exec (show (menu := WeaponSelectorMenu) cursor options) s) in
  length (buttons s2)
    = (length (buttons s) + length (contextWeapons (contextTile options s)))%nat ∧
  (ab_destroyed <$> buttons s2 !! (length (buttons s) + i)%nat) = Some (Nat.even i) ∧
  contextChildren s2
    = odds (seq (length (buttons s)) (length (contextWeapons (contextTile options s)))).
Proof.
  intros Hunit Hi s2.
  destruct (show_run cursor options s Hunit)
    as (r & s1 & E & _ & _ & _ & _ & _ & _ & Ha & Hlen & _).
  destruct (show_effects cursor options s Hunit)
    as (r' & s1' & E' & _ & _ & _ & _ & _ & _ & _ & _ & _ & Hshown).
  rewrite E in E'. injection E' as <- <-.
  assert (exec (show (menu := WeaponSelectorMenu) cursor options) s = s1) as Hs1
    by (unfold exec; by rewrite E).
  subst s2. rewrite Hs1.
  assert (contextChildren s1
          = seq (length (buttons s)) (length (contextWeapons (contextTile options s)))) as Hch.
  { unfold contextChildren. by rewrite Ha. }
  destruct (hide_any s1)
    as (r2 & t & E2 & _ & _ & _ & _ & _ & _ & _ & _ & _ & _ & _ & _ & _ & Hc & Hbs & _).
  unfold exec. rewrite E2. simpl. rewrite Hc, Hbs, hidden_buttons_length, Hlen, Hch.
  split; [done|]. split; [|done].
  destruct (lookup_lt_is_Some_2 (hidden_buttons s1) (length (buttons s) + i)) as [b Hb].
  { rewrite hidden_buttons_length. lia. }
  rewrite Hb. simpl. f_equal.
  assert (destroyed_at (hidden_buttons s1) (length (buttons s) + i) = ab_destroyed b) as <-
    by (unfold destroyed_at; by rewrite Hb).
  unfold hidden_buttons.
  rewrite unhover_pass_destroyed, destroyed_at_destroy_each, Hch, Hshown by lia.
  rewrite shown_buttons_destroyed.
  destruct (lookup_lt_is_Some_2 (contextWeapons (contextTile options s)) i Hi) as [w Hw].
  unfold destroyed_at at 1. rewrite lookup_app_r by lia.
  replace (length (buttons s) + i - length (buttons s))%nat with i by lia.
  rewrite (weaponButtonsFrom_lookup _ 0 i w Hw). simpl. rewrite orb_false_r.
  destruct (Nat.even i) eqn:Ev.
  - apply bool_decide_eq_true_2. by apply evens_seq.
  - apply bool_decide_eq_false_2. rewrite evens_seq by done. by rewrite Ev.
Qed.

Lemma show_hide_destroys_every_second_button_witness :
  let o := Some {| opt_tile := Some unitTile |} in
  let s2 := exec hide (exec (show (menu := WeaponSelectorMenu) unitTile o)
                         newWeaponSelectorMenu) in
  unit_known (Some unitTile) ∧
  length (buttons s2) = (1 + 2)%nat ∧
  (ab_destroyed <$> buttons s2 !! (1 + 0)%nat) = Some true ∧
  (ab_destroyed <$> buttons s2 !! (1 + 1)%nat) = Some false ∧
  contextChildren s2 = [2%nat].
Proof.
  intros o s2.
  assert (unit_known (Some unitTile)) as Hunit by (simpl; eauto).
  split; [exact Hunit|].
  destruct (show_hide_destroys_every_second_button unitTile o newWeaponSelectorMenu 0 Hunit
              ltac:(simpl; lia)) as (Hlen & Hsword & Hch).
  destruct (show_hide_destroys_every_second_button unitTile o newWeaponSelectorMenu 1 Hunit
              ltac:(simpl; lia)) as (_ & Haxe & _).
  split; [exact Hlen|]. split; [exact Hsword|]. split; [exact Haxe|exact Hch].
Defined.
(** ** Further properties: activation *)

Section ActivationEffects.
Context {names : WeaponSelectorNames}.

(** Removing a highlight and recording a 'pointerup' leave the navigable
    buttons live. *)
Lemma navigable_live_pressed s (h : handle) :
  navigable_live s →
  navigable_live (set_pointerups (pointerups s ++ [h])
                    (set_buttons (alter (set_highlighted false) h (buttons s)) s)).
Proof.
  unfold navigable_live, contextChildren. simpl. intros Hlive.
  eapply Forall_impl; [exact Hlive|]. simpl.
  intros h' [Hnot Hd]. split; [done|]. by rewrite destroyed_at_alter.
Qed.

(** X12.  Activating the cancel button never returns and never emits an
    event: when [hide] returns, the closure throws on [hide()]'s
    [undefined], so [sendAction] is never entered; the state left is
    exactly the one [hide] leaves. *)
Theorem cancel_activation_throws (s : ActionsMenu) :
  returns (onClick CancelClick) s = false ∧
  exec (onClick CancelClick) s = exec hide s ∧
  emitted_since s (exec (onClick CancelClick) s) = [].
Proof.
  assert (onClick CancelClick s = (TypeError, exec hide s)) as Hrun
    by apply (onClick_run CancelClick).
  destruct (hide_any s) as (r & t & E & _ & _ & _ & _ & _ & _ & _ & _ & Hev & _).
  unfold returns, emitted_since. unfold exec at 1 3. rewrite Hrun. simpl.
  unfold exec. rewrite E. simpl. rewrite Hev, drop_all. done.
Qed.

(** X13.  ENTER with the cursor on the cancel button, in a menu where no
    navigable button is a child of the context container or destroyed (as
    [show] leaves it, the cancel button being the one navigable button):
    the menu is hidden (panel invisible and cleared, no key bound, list
    empty, count and cursor 0, the timer for 'subscribeMapEvents' set), and
    then the handler throws; nothing is emitted on the bus and nothing
    logged. *)
Theorem enter_hides_menu (s : ActionsMenu) (i : Z) (h : handle) (b : ActionButton) :
  navigable_live s →
  cursorIndex s = Num i →
  0 ≤ i →
  allCurrentButtons s !! Z.to_nat i = Some h →
  buttons s !! h = Some b →
  ab_onClick b = CancelClick →
  let s' := exec keydownENTER s in
  returns keydownENTER s = false ∧
  isVisible s' = false ∧ layer_tiles (layer s') = ∅ ∧ sc_keyboard (scene s') = [] ∧
  allCurrentButtons s' = [] ∧ buttonsCount s' = 0 ∧ cursorIndex s' = Num 0 ∧
  pointerups s' = pointerups s ++ [h] ∧
  emitted_since s s' = [] ∧
  sc_console (scene s') = sc_console (scene s) ∧
  sc_timers (scene s')
    = sc_timers (scene s) ++ [(100, {| ev_name := "subscribeMapEvents"; ev_args := [] |})].
Proof.
  intros Hlive Hcur Hi Hh Hb Hclick.
  set (s2 := set_pointerups (pointerups s ++ [h])
               (set_buttons (alter (set_highlighted false) h (buttons s)) s)).
  assert (keydownENTER s = onClick CancelClick s2) as Heq.
  { unfold keydownENTER. msimpl. unfold js_index. rewrite Hcur, decide_True, Hh by done.
    unfold removeHighlight, update_button, emit_pointerup. msimpl.
    rewrite list_lookup_alter_eq, Hb. simpl. by rewrite Hclick. }
  assert (navigable_live s2) as Hlive2 by (by apply navigable_live_pressed).
  destruct (navigable_live_completes s2 Hlive2) as [Hcomp _].
  assert (onClick CancelClick s2 = (TypeError, exec hide s2)) as Hrun
    by apply (onClick_run CancelClick).
  destruct (hide_any s2)
    as (r & t & E & _ & _ & Hp & Hv & Hti & _ & _ & Hkb & Hev & Hcons & _ & _ & _ & _ & _
        & Hn & Hc & Hl & Htm).
  rewrite Hcomp in Hn, Hc, Hl, Htm.
  intros s'. subst s'. unfold returns, emitted_since, exec. rewrite Heq, Hrun. simpl.
  unfold exec. rewrite E. simpl. rewrite Hev, Htm. simpl. rewrite drop_all.
  repeat split; done.
Qed.
End ActivationEffects.

Lemma enter_hides_menu_witness :
  navigable_live shownMenu ∧
  cursorIndex shownMenu = Num 0 ∧
  allCurrentButtons shownMenu !! Z.to_nat 0 = Some 0%nat ∧
  (ab_onClick <$> buttons shownMenu !! 0%nat) = Some CancelClick ∧
  returns (keydownENTER (names := demoNames)) shownMenu = false ∧
  isVisible (exec (keydownENTER (names := demoNames)) shownMenu) = false ∧
  allCurrentButtons (exec (keydownENTER (names := demoNames)) shownMenu) = [] ∧
  emitted_since shownMenu (exec (keydownENTER (names := demoNames)) shownMenu) = [].
Proof.
  assert (navigable_live shownMenu) as Hlive.
  { refine (bool_decide_unpack _ _). vm_compute. exact I. }
  assert (cursorIndex shownMenu = Num 0) as Hcur by (vm_compute; reflexivity).
  assert (allCurrentButtons shownMenu !! Z.to_nat 0 = Some 0%nat) as Hh
    by (vm_compute; reflexivity).
  assert (∃ b, buttons shownMenu !! 0%nat = Some b ∧ ab_onClick b = CancelClick)
    as (b & Hb & Hclick) by (vm_compute; eauto).
  split; [exact Hlive|]. split; [exact Hcur|]. split; [exact Hh|].
  split; [rewrite Hb; exact (f_equal Some Hclick)|].
  destruct (enter_hides_menu (names := demoNames) shownMenu 0 0%nat b Hlive Hcur ltac:(lia)
              Hh Hb Hclick) as (Hr & Hv & _ & _ & Hl & _ & _ & _ & He & _).
  split; [exact Hr|]. split; [exact Hv|]. split; [exact Hl|exact He].
Defined.

(** ** Further properties: placement and construction *)

(** X14.  For a reference tile with column below the map width and row below the
    map height, the panel [getMenuCoord] places never passes the right or
    the bottom edge of the map, whatever the map size and the button count;
    and it never covers the reference tile: it starts in the column right
    of the tile or ends in the column left of it. *)
Theorem getMenuCoord_beside_tile (lines : LinesTiles) (cursor : Tile) (s : ActionsMenu) :
  tile_x cursor < tilemap_width (layer s) →
  tile_y cursor < tilemap_height (layer s) →
  let c := getMenuCoord lines cursor s in
  coord_x c + getPanelWidth lines ≤ tilemap_width (layer s) ∧
  coord_y c + (buttonsCount s + 2) ≤ tilemap_height (layer s) ∧
  (coord_x c = tile_x cursor + 1 ∨ coord_x c + getPanelWidth lines = tile_x cursor).
Proof.
  intros Hx Hy. unfold getMenuCoord. simpl. repeat case_bool_decide; lia.
Qed.

Lemma getMenuCoord_beside_tile_witness :
  let cursor := {| tile_x := 29; tile_y := 19; tile_tileUnit := None |} in
  let c := getMenuCoord WeaponSelectorMenu_linesTiles cursor newWeaponSelectorMenu in
  tile_x cursor < 30 ∧ tile_y cursor < 20 ∧
  c = {| coord_x := 21; coord_y := 18 |} ∧
  coord_x c + getPanelWidth WeaponSelectorMenu_linesTiles ≤ 30 ∧
  coord_y c + (0 + 2) ≤ 20.
Proof.
  intros cursor c. split; [simpl; lia|]. split; [simpl; lia|]. split; [reflexivity|].
  destruct (getMenuCoord_beside_tile WeaponSelectorMenu_linesTiles cursor
              newWeaponSelectorMenu) as (Hx & Hy & _); [simpl; lia|simpl; lia|].
  split; [exact Hx|exact Hy].
Defined.

(** X15.  For a context tile whose unit carries the weapons [ws],
    [createAdditionalButtons] of the weapon menu returns a visible container
    at (0, 0) whose [i]-th child is a new button for the [i]-th weapon:
    labelled with the weapon's name, nine spaces, "x" and its usage, 200
    wide, at (0, 30 * (i + 1)), wired to that weapon, neither highlighted
    nor hovered.  The buttons already in the store, and every field of the
    menu, stay as they were. *)
Theorem weapon_buttons_built (s : ActionsMenu) (t : Tile) (ws : list Weapon)
    (i : nat) (w : Weapon) :
  tile s = Some t →
  tile_tileUnit t = Some ws →
  ws !! i = Some w →
  ∃ container s',
    createAdditionalButtons (MenuClass := WeaponSelectorMenu) s = (Normal container, s') ∧
    c_visible container = true ∧
    c_position container = {| coord_x := 0; coord_y := 0 |} ∧
    length (c_list container) = length ws ∧
    c_list container !! i = Some (length (buttons s) + i)%nat ∧
    buttons s' !! (length (buttons s) + i)%nat
      = Some {| ab_text := weapon_name w +:+ "         x" +:+ pretty (weapon_usage w);
                ab_width := 200;
                ab_coord := Some {| coord_x := 0; coord_y := (Z.of_nat i + 1) * 30 |};
                ab_onClick := WeaponClick w; ab_highlighted := false;
                ab_onPointerOver := None; ab_destroyed := false |} ∧
    (∀ h, (h < length (buttons s))%nat → buttons s' !! h = buttons s !! h) ∧
    s' = set_buttons (buttons s') s.
Proof.
  intros Ht Hws Hw. simpl. rewrite createAdditionalButtons_eq, Ht, Hws.
  eexists _, _. split; [reflexivity|]. simpl. repeat split.
  - by rewrite length_seq.
  - apply lookup_seq. split; [done|]. by apply lookup_lt_Some in Hw.
  - rewrite lookup_app_r by lia.
    replace (length (buttons s) + i - length (buttons s))%nat with i by lia.
    by rewrite (weaponButtonsFrom_lookup ws 0 i w Hw).
  - intros h Hh. by rewrite lookup_app_l.
Qed.

Lemma weapon_buttons_built_witness :
  let s := set_tile (Some unitTile) newWeaponSelectorMenu in
  tile s = Some unitTile ∧ tile_tileUnit unitTile = Some [sword; axe] ∧
  [sword; axe] !! 1%nat = Some axe ∧
  (ab_text <$> buttons (exec (createAdditionalButtons (MenuClass := WeaponSelectorMenu)) s)
                 !! 2%nat) = Some "axe         x25".
Proof.
  intros s. split; [reflexivity|]. split; [reflexivity|]. split; [reflexivity|].
  destruct (weapon_buttons_built s unitTile [sword; axe] 1 axe eq_refl eq_refl eq_refl)
    as (c & s' & E & _ & _ & _ & _ & Hb & _).
  unfold exec. rewrite E. simpl. simpl in Hb. rewrite Hb. reflexivity.
Defined.

(** X16.  [new WeaponSelectorMenu(scene, layer)] returns a hidden menu: the layer
    and the permanent container are invisible, the container holds the
    cancel button alone, which is the only object of the store; nothing is
    painted, emitted, bound or scheduled, and no tile is stored. *)
Theorem new_menu_is_hidden (sc : Scene) (l : Layer) :
  let s := (construct (menu := WeaponSelectorMenu) sc l).2 in
  (construct (menu := WeaponSelectorMenu) sc l).1 = Normal () ∧
  isVisible s = false ∧ c_visible (permanentButtons s) = false ∧
  c_list (permanentButtons s) = [0%nat] ∧
  (ab_onClick <$> buttons s) = [CancelClick] ∧
  (ab_text <$> buttons s) = ["cancel"] ∧
  (ab_highlighted <$> buttons s) = [false] ∧
  layer_tiles (layer s) = layer_tiles l ∧ scene s = sc ∧
  tile s = None ∧ additionalButtons s = None ∧
  allCurrentButtons s = [] ∧ buttonsCount s = 0 ∧ cursorIndex s = Num 0.
Proof. destruct sc, l. repeat split. Qed.

(** ** Further properties: the highlight set by [show], hover after [hide] *)

(** X17.  [show] leaves the cursor where it was and highlights the first
    navigable button without touching the highlight of any other; so when
    the cursor is at 0 and no permanent button is highlighted (as after
    the constructor or [hide]), exactly the button under the cursor is
    highlighted afterwards. *)
Theorem show_highlights_first (cursor : Tile) (options : option ActionsMenuShowOptions)
    (s : ActionsMenu) :
  unit_known (contextTile options s) →
  NoDup (c_list (permanentButtons s)) →
  (∀ h, h ∈ c_list (permanentButtons s) →
     ∃ b, buttons s !! h = Some b ∧ ab_highlighted b = false) →
  let s' := exec (show (menu := WeaponSelectorMenu) cursor options) s in
  cursorIndex s' = cursorIndex s ∧ highlight_at s' 0.
Proof.
  intros Hunit Hnd Hall s'.
  destruct (show_effects cursor options s Hunit)
    as (r & t & E & _ & _ & _ & _ & _ & _ & _ & _ & _ & Hbs).
  destruct (show_run cursor options s Hunit) as (r' & t' & E' & _ & Hl & _ & Hc & _).
  rewrite E in E'. injection E' as <- <-.
  assert (s' = t) as -> by (subst s'; unfold exec; by rewrite E).
  split; [done|]. unfold highlight_at. rewrite Hl, Hbs. split; [done|].
  intros k h Hk. destruct (Hall h) as (b & Hb & Hhl); [by eapply list_elem_of_lookup_2|].
  unfold shown_buttons.
  assert (alter_each (λ i, set_onPointerOver (Some i)) (c_list (permanentButtons s)) 0
            (buttons s ++ weaponButtonsFrom (contextWeapons (contextTile options s)) 0) !! h
          = Some (set_onPointerOver (Some k) b)) as Hh.
  { rewrite (alter_each_hover _ 0 _ k h Hnd Hk).
    rewrite lookup_app_l by (by apply lookup_lt_Some in Hb). by rewrite Hb. }
  destruct (c_list (permanentButtons s)) as [|h0 l] eqn:El; [done|].
  destruct k as [|k]; simpl in Hk.
  - injection Hk as ->. rewrite list_lookup_alter_eq, Hh. simpl. eauto.
  - assert (h0 ≠ h) as Hne.
    { intros ->. apply NoDup_cons in Hnd as [Hnotin _]. apply Hnotin.
      by eapply list_elem_of_lookup_2. }
    rewrite list_lookup_alter_ne, Hh by done. eexists. split; [done|].
    cbn [set_onPointerOver ab_highlighted]. rewrite Hhl. symmetry.
    apply bool_decide_eq_false_2. lia.
Qed.

(** X18.  When no navigable button is a child of the context container or
    destroyed, as [show] leaves the menu, the hover handlers are gone after
    [hide]: the pointer entering a button that was navigable changes
    nothing. *)
Theorem hover_after_hide (s : ActionsMenu) (h : handle) :
  navigable_live s →
  h ∈ allCurrentButtons s →
  returns hide s = true ∧
  pointerOver h (exec hide s) = (Normal (), exec hide s).
Proof.
  intros Hlive Hin.
  destruct (hide_any s)
    as (r & t & E & Hr & _ & _ & _ & _ & _ & _ & _ & _ & _ & _ & _ & _ & _ & Hbs & _).
  destruct (navigable_live_completes s Hlive) as [Hcomp _]. rewrite Hcomp in Hr. subst r.
  unfold returns, exec. rewrite E. simpl. split; [done|].
  unfold pointerOver. msimpl. rewrite Hbs.
  destruct (buttons s !! h) as [b|] eqn:Hb.
  - destruct (hidden_buttons_lookup s h b Hb) as (b' & Hb' & _ & _ & _ & Hnav).
    destruct (Hnav Hlive Hin) as [_ Ho]. by rewrite Hb', Ho.
  - assert (hidden_buttons s !! h = None) as ->; [|done].
    apply eq_None_not_Some. rewrite lookup_lt_is_Some, hidden_buttons_length.
    intros Hlt. apply lookup_lt_is_Some in Hlt as [? ?]. congruence.
Qed.

Lemma show_highlights_first_witness :
  let s' := exec (show (menu := WeaponSelectorMenu) plainTile None) newWeaponSelectorMenu in
  unit_known (contextTile None newWeaponSelectorMenu) ∧
  c_list (permanentButtons newWeaponSelectorMenu) = [0%nat] ∧
  (ab_highlighted <$> buttons newWeaponSelectorMenu !! 0%nat) = Some false ∧
  cursorIndex s' = Num 0 ∧ highlight_at s' 0.
Proof.
  intros s'. split; [exact I|]. split; [reflexivity|]. split; [reflexivity|].
  apply (show_highlights_first plainTile None newWeaponSelectorMenu I).
  - refine (bool_decide_unpack _ _). vm_compute. exact I.
  - intros h Hh. apply list_elem_of_singleton in Hh as ->. eexists. split; reflexivity.
Defined.

Lemma hover_after_hide_witness :
  navigable_live shownMenu ∧
  0%nat ∈ allCurrentButtons shownMenu ∧
  (ab_onPointerOver <$> buttons shownMenu !! 0%nat) = Some (Some 0%nat) ∧
  returns hide shownMenu = true ∧
  returns (pointerOver 0) (exec hide shownMenu) = true ∧
  exec (pointerOver 0) (exec hide shownMenu) = exec hide shownMenu.
Proof.
  assert (navigable_live shownMenu) as Hlive.
  { refine (bool_decide_unpack _ _). vm_compute. exact I. }
  assert (0%nat ∈ allCurrentButtons shownMenu) as Hin.
  { refine (bool_decide_unpack _ _). vm_compute. exact I. }
  split; [exact Hlive|]. split; [exact Hin|]. split; [vm_compute; reflexivity|].
  destruct (hover_after_hide shownMenu 0%nat Hlive Hin) as [Hret H].
  split; [exact Hret|]. split.
  - unfold returns. rewrite H. reflexivity.
  - unfold exec at 1. rewrite H. reflexivity.
Defined.
